(** * Section ranking pipeline: a shallow embedding and its properties

    The development follows the Python modules of the repository:
    [summarizer.py], [pdf_parser.py], [relevance_model.py],
    [output_generator.py] and [main.py].

    Modelling conventions.
    - A Python [str] is a list of Unicode code points ([str := list N]).
      White space is Python's full [str.isspace] table.  The other
      character classes ([\d], [\w], [isupper], [isdigit], [lower]) are
      given on the ASCII range; code points outside it are caseless and
      belong to none of those classes.
    - Python floats are idealised as rationals: scores are [Q], font sizes
      are canonical rationals [Qc] (they are dictionary keys, compared
      with [==]).
    - A section [dict] is a record of optional fields; [d.get(k, v)] is
      [default v (k d)] and [d[k]] on a missing key raises, which is [None]
      in the error monad [option].
    - The external collaborators (PyMuPDF, NLTK, scikit-learn, NumPy,
      sentence-transformers) are Section variables. *)

From Stdlib Require Import ZArith NArith QArith Qminmax Qcanon Lia Lqa Permutation.
From Stdlib Require Import Strings.String Strings.Ascii.
From stdpp Require Import base option list gmap sorting.

Local Open Scope nat_scope.
Local Open Scope list_scope.

(** ** Python strings *)

Module PyStr.

Definition char := N.
Definition str := list char.

(** An ASCII literal as a Python string. *)
Definition py (s : string) : str := map N_of_ascii (list_ascii_of_string s).

Definition in_range (lo hi : N) (c : char) : bool := ((lo <=? c) && (c <=? hi))%N.

(** [str.isspace] (also the class [\s] of [re] on [str] patterns). *)
Definition isspace (c : char) : bool :=
  in_range 9 13 c || in_range 28 32 c || (c =? 133)%N || (c =? 160)%N
  || (c =? 5760)%N || in_range 8192 8202 c || (c =? 8232)%N || (c =? 8233)%N
  || (c =? 8239)%N || (c =? 8287)%N || (c =? 12288)%N.

Definition is_az (c : char) : bool := in_range 97 122 c.
Definition is_AZ (c : char) : bool := in_range 65 90 c.
Definition isdigit (c : char) : bool := in_range 48 57 c.
Definition isupper (c : char) : bool := is_AZ c.
Definition isalpha (c : char) : bool := is_az c || is_AZ c.
(** The class [\w]. *)
Definition isword (c : char) : bool := isalpha c || isdigit c || (c =? 95)%N.

Definition lower_char (c : char) : char := if is_AZ c then (c + 32)%N else c.
Definition upper_char (c : char) : char := if is_az c then (c - 32)%N else c.
Definition lower (s : str) : str := map lower_char s.

Fixpoint lstrip (s : str) : str :=
  match s with
  | c :: s' => if isspace c then lstrip s' else s
  | [] => []
  end.
Definition rstrip (s : str) : str := rev (lstrip (rev s)).
Definition strip (s : str) : str := rstrip (lstrip s).

(** Maximal runs of characters satisfying [P]; [cur] is the run being
    read, reversed. *)
Fixpoint runs (P : char -> bool) (cur : str) (s : str) : list str :=
  match s with
  | [] => match cur with [] => [] | _ => [rev cur] end
  | c :: s' =>
      if P c then runs P (c :: cur) s'
      else match cur with
           | [] => runs P [] s'
           | _ => rev cur :: runs P [] s'
           end
  end.

(** [s.split()]: split on runs of white space, no empty tokens. *)
Definition split (s : str) : list str := runs (fun c => negb (isspace c)) [] s.

Fixpoint startswith (s p : str) : bool :=
  match p, s with
  | [], _ => true
  | a :: p', b :: s' => (a =? b)%N && startswith s' p'
  | _ :: _, [] => false
  end.
Definition endswith (s p : str) : bool := startswith (rev s) (rev p).
(** [s.startswith(tuple)], [s.endswith(tuple)]. *)
Definition startswith_any (s : str) (ps : list str) : bool := existsb (startswith s) ps.
Definition endswith_any (s : str) (ps : list str) : bool := existsb (endswith s) ps.

(** [p in s] *)
Fixpoint contains (s p : str) : bool :=
  startswith s p || match s with [] => false | _ :: s' => contains s' p end.

(** [sep.join(l)] *)
Fixpoint join (sep : str) (l : list str) : str :=
  match l with
  | [] => []
  | [x] => x
  | x :: l' => x ++ sep ++ join sep l'
  end.

(** Truth value of a string, and of a list. *)
Definition truthy {A} (l : list A) : bool := match l with [] => false | _ => true end.

Definition str_eqb (a b : str) : bool := bool_decide (a = b).

End PyStr.
Export PyStr.

(** ** The regular expressions of [re], by backtracking *)

Module Re.

Inductive re :=
  | Eps
  | Chr (P : char -> bool)          (* a class or a literal character *)
  | Seq (r1 r2 : re)
  | Alt (r1 r2 : re)                (* r1|r2, r1 tried first *)
  | Star (r : re)                   (* greedy r* *)
  | Bol                             (* ^ *)
  | Eol                             (* $ *)
  | WordB.                          (* \b *)

Definition Plus (r : re) : re := Seq r (Star r).
Definition Opt (r : re) : re := Alt r Eps.
Definition Lit1 (c : N) : re := Chr (N.eqb c).
Definition OneOf (cs : str) : re := Chr (fun c => existsb (N.eqb c) cs).
Definition NoneOf (cs : str) : re := Chr (fun c => negb (existsb (N.eqb c) cs)).
Fixpoint Lit (s : str) : re :=
  match s with
  | [] => Eps
  | c :: s' => Seq (Lit1 c) (Lit s')
  end.
Fixpoint Alts (rs : list re) : re :=
  match rs with
  | [] => Chr (fun _ => false)
  | [r] => r
  | r :: rs' => Alt r (Alts rs')
  end.
Fixpoint Seqs (rs : list re) : re :=
  match rs with
  | [] => Eps
  | r :: rs' => Seq r (Seqs rs')
  end.

(** [\\d+], [\\s+] and an alternation of literal words. *)
Definition digits : re := Plus (Chr isdigit).
Definition spaces : re := Plus (Chr isspace).
Definition words_of (ws : list string) : re := Alts (map (fun w => Lit (py w)) ws).

Definition word_opt (c : option char) : bool :=
  match c with Some c => isword c | None => false end.

(** [run ic r prev s k]: match [r] at a position whose previous character
    is [prev] and whose remaining input is [s]; [k] receives the position
    after the match and may refuse it, which makes the matcher backtrack.
    [ic] is the flag [re.IGNORECASE]. *)
Fixpoint run {A} (ic : bool) (r : re) (prev : option char) (s : str)
    (k : option char -> str -> option A) : option A :=
  match r with
  | Eps => k prev s
  | Chr P =>
      match s with
      | c :: s' =>
          if P c || (ic && (P (lower_char c) || P (upper_char c)))
          then k (Some c) s' else None
      | [] => None
      end
  | Seq r1 r2 => run ic r1 prev s (fun p' s' => run ic r2 p' s' k)
  | Alt r1 r2 =>
      match run ic r1 prev s k with
      | Some x => Some x
      | None => run ic r2 prev s k
      end
  | Star r1 =>
      (fix loop (fuel : nat) (prev : option char) (s : str) : option A :=
         match fuel with
         | 0 => k prev s
         | S fuel' =>
             match run ic r1 prev s
                     (fun p' s' =>
                        if length s' <? length s then loop fuel' p' s' else None) with
             | Some x => Some x
             | None => k prev s
             end
         end) (length s) prev s
  | Bol => match prev with None => k prev s | Some _ => None end
  | Eol =>
      match s with
      | [] => k prev s
      | [c] => if (c =? 10)%N then k prev s else None
      | _ => None
      end
  | WordB =>
      if xorb (word_opt prev) (word_opt (head s)) then k prev s else None
  end.

(** The input left after the first (highest-priority) match at this
    position, if any. *)
Definition match_at (ic : bool) (r : re) (prev : option char) (s : str) : option str :=
  run ic r prev s (fun _ s' => Some s').

(** [re.match(r, s)] as a truth value. *)
Definition re_match (r : re) (s : str) : bool :=
  match match_at false r None s with Some _ => true | None => false end.

(** Scan for non-overlapping matches from left to right. *)
Fixpoint scan (ic : bool) (r : re) (fuel : nat) (prev : option char) (s : str)
    : list (str * option str) :=
  (* a list of (text skipped before the match, the match); the last entry
     has no match and carries the unmatched tail *)
  match fuel with
  | 0 => [(s, None)]
  | S fuel' =>
      match match_at ic r prev s with
      | Some s' =>
          let n := length s - length s' in
          match n, s with
          | 0, c :: t =>
              (* empty match: record it and step over one character *)
              match scan ic r fuel' (Some c) t with
              | (skipped, m) :: rest => ([], Some []) :: (c :: skipped, m) :: rest
              | [] => [([], Some [])]
              end
          | 0, [] => [([], Some []); ([], None)]
          | _, _ =>
              ([], Some (take n s)) :: scan ic r fuel' (last (take n s)) s'
          end
      | None =>
          match s with
          | [] => [([], None)]
          | c :: t =>
              match scan ic r fuel' (Some c) t with
              | (skipped, m) :: rest => (c :: skipped, m) :: rest
              | [] => [([c], None)]
              end
          end
      end
  end.

(** [re.findall(r, s)] for a pattern without capturing groups. *)
Definition findall (ic : bool) (r : re) (s : str) : list str :=
  omap snd (scan ic r (S (length s)) None s).

(** [re.sub(r, repl, s)] for a literal replacement. *)
Definition sub (ic : bool) (r : re) (repl : str) (s : str) : str :=
  concat (map (fun '(skipped, m) =>
                 skipped ++ match m with Some _ => repl | None => [] end)
              (scan ic r (S (length s)) None s)).

End Re.

(** ** summarizer.py *)

Module Summarizer.
Import Re.

(** [re.sub(r'\s+', ' ', text).strip()] *)
Definition clean_text (text : str) : str :=
  strip (sub false (Plus (Chr isspace)) (py " ") text).

Definition Qsum (row : list Q) : Q := fold_right Qplus 0%Q row.

Section Collaborators.
(** [nltk.sent_tokenize] *)
Variable sent_tokenize : str -> list str.
(** [TfidfVectorizer(stop_words="english").fit_transform], as the rows of
    the matrix it returns, one per sentence; [None] when it raises. *)
Variable fit_transform : list str -> option (list (list Q)).
(** [np.argsort] *)
Variable argsort : list Q -> list nat.

(** [max_sentences] is a count of sentences; the parser passes the
    default, 3. *)
Definition summarize_text (text : str) (max_sentences : nat) : option str :=
  let sentences := sent_tokenize text in
  if length sentences <=? max_sentences then Some (clean_text text)
  else
    X ← fit_transform sentences;
    (* sum of TF-IDF weights of each sentence *)
    let importance := map Qsum X in
    let ranked_indices := rev (argsort importance) in
    top_sentences ←
      mapM (fun i => sentences !! i)
           (merge_sort le (take max_sentences ranked_indices));
    Some (clean_text (join (py " ") top_sentences)).
End Collaborators.

End Summarizer.

(** ** The section dictionaries passed between the modules *)

Record section := {
  section_title : option str;
  context : option str;
  summary : option str;
  page : option Z;
  text : option str;
  document : option str
}.

(** ** pdf_parser.py *)

Module PdfParser.
Import Re.

(** What the parser reads of a PyMuPDF text dictionary: the blocks of a
    page, the lines of a block (image blocks have none), the spans of a
    line with their text, size and flags. *)
Record span := { span_text : str; span_size : Qc; span_flags : Z }.
Definition pdf_line := list span.
Record pdf_block := { block_lines : option (list pdf_line) }.
Definition pdf_page := list pdf_block.
Definition pdf_document := list pdf_page.

(** An entry of [spans_data]. *)
Record span_data := { sd_text : str; sd_spans : list span; sd_page : Z }.

(** [flags & 16 > 0] *)
Definition is_bold (flags : Z) : bool := (0 <? Z.land flags 16)%Z.

Definition font_key := (Qc * bool)%type.

(** [font_stats]: a [defaultdict(int)], which iterates in insertion order. *)
Section OrderedDict.
Context {K : Type} `{EqDecision K}.

(** [d[k] += n] *)
Fixpoint dict_add (k : K) (n : nat) (d : list (K * nat)) : list (K * nat) :=
  match d with
  | [] => [(k, 0 + n)]
  | (k', v) :: d' =>
      if decide (k = k') then (k', v + n) :: d' else (k', v) :: dict_add k n d'
  end.

Fixpoint dict_get (k : K) (d : list (K * nat)) : nat :=
  match d with
  | [] => 0
  | (k', v) :: d' => if decide (k = k') then v else dict_get k d'
  end.

(** [max(keys, key=key)]: the first of the keys whose value is maximal. *)
Definition max_by (key : K -> nat) (keys : list K) : option K :=
  match keys with
  | [] => None
  | k :: keys' =>
      Some (fold_left (fun best x => if key best <? key x then x else best) keys' k)
  end.

(** [max(d.keys(), key=lambda x: d[x])], the keys being iterated in
    insertion order. *)
Definition dict_max_key (d : list (K * nat)) : option K :=
  max_by (fun x => dict_get x d) (map fst d).
End OrderedDict.

Definition bullet_starts : list str :=
  [[8226]; [9679]; py "-"; py "*"; [9642]; [8227]; [10148]; [9702]; [8211]]%N.

Definition dot_or_paren : re := OneOf (py ".)").

Definition is_bullet_point (text : str) : bool :=
  if startswith_any (strip text) bullet_starts then true
  else if re_match (Seqs [Bol; Opt (Lit1 40); Plus (Chr isdigit); dot_or_paren]) (strip text)
  then true
  else if re_match (Seqs [Bol; Chr isalpha; Lit1 41]) (strip text) then true
  else false.

(** The first loop nest: every line with text becomes an entry of
    [spans_data], and every span with text adds its word count to
    [font_stats]. *)
Definition scan_span (st : str * list span * list (font_key * nat)) (sp : span)
    : str * list span * list (font_key * nat) :=
  let '(line_text, line_spans, font_stats) := st in
  let text := strip (span_text sp) in
  if truthy text then
    (line_text ++ text ++ py " ",
     line_spans ++ [{| span_text := text; span_size := span_size sp;
                       span_flags := span_flags sp |}],
     dict_add (span_size sp, is_bold (span_flags sp)) (length (split text)) font_stats)
  else st.

Definition scan_line (page_num : nat)
    (st : list span_data * list (font_key * nat)) (ln : pdf_line)
    : list span_data * list (font_key * nat) :=
  let '(spans_data, font_stats) := st in
  let '(line_text, line_spans, font_stats') :=
    fold_left scan_span ln ([], [], font_stats) in
  if truthy (strip line_text) then
    (spans_data ++ [{| sd_text := strip line_text; sd_spans := line_spans;
                       sd_page := Z.of_nat page_num + 1 |}], font_stats')
  else (spans_data, font_stats').

Definition scan_block (page_num : nat)
    (st : list span_data * list (font_key * nat)) (b : pdf_block)
    : list span_data * list (font_key * nat) :=
  match block_lines b with
  | None => st
  | Some lines => fold_left (scan_line page_num) lines st
  end.

Fixpoint scan_pages (page_num : nat) (pages : list pdf_page)
    (st : list span_data * list (font_key * nat))
    : list span_data * list (font_key * nat) :=
  match pages with
  | [] => st
  | p :: pages' => scan_pages (S page_num) pages' (fold_left (scan_block page_num) p st)
  end.

Definition collect (doc : pdf_document) : list span_data * list (font_key * nat) :=
  scan_pages 0 doc ([], []).

Definition body_font (doc : pdf_document) : option font_key :=
  dict_max_key (snd (collect doc)).


Definition Qc_leb (a b : Qc) : bool := Qle_bool a b.


(** Matched against [text.lower()]. *)
Definition skip_patterns : list re :=
  [ Seqs [Bol; digits; Eol];
    Seqs [Bol; Plus (OneOf (py "ivxlcdm")); Eol];
    Seqs [Bol; Chr is_az; dot_or_paren];
    Seqs [Bol; Lit1 40; Plus (NoneOf (py ")")); Lit1 41; Eol];
    Seqs [Bol; OneOf [8226; 45; 8211; 9679; 9702; 9642; 8227; 10148; 42]%N];
    Seqs [Bol; Opt (Lit1 40); digits; dot_or_paren];
    Seqs [Bol; Chr isalpha; Lit1 41];
    Seqs [Bol; Star (Chr isspace); Eol];
    Seqs [Bol; words_of ["figure"; "table"; "fig"; "tab"]%string;
          Chr (fun c => isspace c || isdigit c)];
    Seqs [Bol; words_of ["see"; "refer"; "source"; "note"]%string;
          Chr (fun c => isspace c || (c =? 58)%N)] ].

Definition footer_keywords : list str :=
  [py "page"; py "chapter"; py "section"; py "www."; py "http"; py "@";
   py "copyright"; [169%N]].

Definition title_word : re := Seq (Chr is_AZ) (Plus (Chr is_az)).

Definition positive_patterns : list re :=
  [ Seqs [Bol; digits; Chr (fun c => (c =? 46)%N || isspace c)];
    Seqs [Bol; title_word; Star (Seq spaces title_word); Eol];
    Seqs [Bol; Plus (Chr (fun c => is_AZ c || isspace c)); Eol];
    Seqs [Bol; digits; Lit1 46; digits] ].

Definition terminal_punctuation : list str := [py "."; py "!"; py "?"; py ";"].

(** The closure [is_heading] with the two variables it captures. *)
Definition is_heading (body_size : Qc) (body_is_bold : bool) (sd : span_data) : bool :=
  let text := strip (sd_text sd) in
  if is_bullet_point text then false
  else if negb (truthy text) || (length text <? 3) then false
  else if 20 <? length (split text) then false
  else if endswith_any text terminal_punctuation then false
  else if existsb (fun pattern => re_match pattern (lower text)) skip_patterns then false
  else if existsb (fun keyword => contains (lower text) keyword) footer_keywords then false
  else
    match sd_spans sd with
    | [] => false
    | main_span :: _ =>
        let size := span_size main_span in
        let bold := is_bold (span_flags main_span) in
        let size_threshold := (body_size + Q2Qc (1 # 2))%Qc in
        let is_larger := Qc_leb size_threshold size in
        let is_emphasized := bold && negb body_is_bold in
        if negb (is_larger || is_emphasized) then false
        else if negb (match text with
                      | c :: _ => isupper c || isdigit c
                      | [] => false
                      end) then false
        else
          let has_positive_pattern :=
            existsb (fun pattern => re_match pattern text) positive_patterns in
          if has_positive_pattern then true
          else is_larger && (is_emphasized || (length (split text) <=? 8))
    end.

(** The state of the second loop. *)
Record assembler := {
  current_heading : option str;
  current_context : list str;
  current_page : option Z;
  sections : list section
}.

Definition heading_truthy (h : option str) : bool :=
  match h with Some h => truthy h | None => false end.

Section Assembler.
(** [summarize_text] with its default [max_sentences]; [None] when the
    vectorizer raises. *)
Variable summarize : str -> option str.

(** "Save previous section" and "Final section": the same block, twice in
    the source. *)
Definition save_section (st : assembler) : option (list section) :=
  if heading_truthy (current_heading st) && truthy (current_context st) then
    let full_context := strip (join (py " ") (current_context st)) in
    if truthy full_context then
      summarized ←
        (if 40 <? length (split full_context) then summarize full_context
         else Some full_context);
      Some (sections st ++
            [{| section_title := current_heading st;
                context := Some full_context;
                summary := Some summarized;
                page := current_page st;
                text := current_heading st;
                document := None |}])
    else Some (sections st)
  else Some (sections st).

Definition assemble_step (heading : span_data -> bool)
    (st : option assembler) (sd : span_data) : option assembler :=
  st ← st;
  if heading sd then
    secs ← save_section st;
    Some {| current_heading := Some (sd_text sd);
            current_context := [];
            current_page := Some (sd_page sd);
            sections := secs |}
  else if heading_truthy (current_heading st) then
    Some {| current_heading := current_heading st;
            current_context := current_context st ++ [sd_text sd];
            current_page := current_page st;
            sections := sections st |}
  else Some st.

Definition initial : assembler :=
  {| current_heading := None; current_context := []; current_page := None;
     sections := [] |}.

(** The [sections] list before the final filter. *)
Definition assemble (heading : span_data -> bool) (spans_data : list span_data)
    : option (list section) :=
  st ← fold_left (assemble_step heading) spans_data (Some initial);
  save_section st.

(** [len(s['context'].split()) >= 5]; the key is set on every section
    this module builds. *)
Definition long_enough (s : section) : bool :=
  5 <=? length (split (default [] (context s))).

Definition extract_headings_with_context (doc : pdf_document) : option (list section) :=
  let '(spans_data, font_stats) := collect doc in
  match dict_max_key font_stats with
  | None => Some []
  | Some (body_size, body_is_bold) =>
      secs ← assemble (is_heading body_size body_is_bold) spans_data;
      Some (List.filter long_enough secs)
  end.
End Assembler.

End PdfParser.

(** ** relevance_model.py *)

Module RelevanceModel.
Import Re.

(** [a / b] on two lengths. *)
Definition Qdiv_nat (a b : nat) : Q := (inject_Z (Z.of_nat a) / inject_Z (Z.of_nat b))%Q.
Definition Qgtb (a b : Q) : bool := negb (Qle_bool a b).

(** [section.get("section_title", section.get("text", ""))] *)
Definition heading_of (s : section) : str :=
  default (default [] (text s)) (section_title s).
(** [section.get("summary", section.get("context", ""))] *)
Definition summary_of (s : section) : str :=
  default (default [] (context s)) (summary s).

Definition common_phrases : re :=
  Seqs [WordB;
        words_of ["the"; "and"; "or"; "but"; "in"; "on"; "at"; "to"; "for";
                  "of"; "with"; "by"]%string;
        WordB].

Definition domain_patterns : list re :=
  [ Seqs [WordB; PdfParser.title_word;
          Star (Seq spaces PdfParser.title_word); WordB];
    Seqs [WordB; Plus (Chr isword);
          words_of ["ology"; "ics"; "ism"; "tion"; "sion"; "ment"; "ness";
                    "ity"]%string;
          WordB];
    Seqs [WordB;
          words_of ["method"; "approach"; "technique"; "algorithm"; "model";
                    "framework"]%string;
          Star (Chr isword); WordB] ].

Definition extract_keywords (text : str) : str :=
  let text := sub false common_phrases (py " ") (lower text) in
  let keywords := flat_map (fun pattern => findall true pattern text) domain_patterns in
  join (py " ") (take 10 keywords).

(** [calculate_position_bonus], the bonus of the section at index [i]. *)
Definition position_bonus_at (n i : nat) (s : section) : Q :=
  let page_bonus :=
    Qmax 0 ((10 - inject_Z (default 10%Z (page s))) / 10 * (1 # 10)) in
  let order_bonus := Qmax 0 (Qdiv_nat (n - i) n * (5 # 100)) in
  (page_bonus + order_bonus)%Q.
Definition calculate_position_bonus (sections : list section) : list Q :=
  imap (position_bonus_at (length sections)) sections.

(** [f"{heading}. {summary} {keywords}".strip()] *)
Definition enhanced_text_of (s : section) : str :=
  let heading := strip (heading_of s) in
  let summary := strip (summary_of s) in
  let keywords := extract_keywords (heading ++ py " " ++ summary) in
  strip (heading ++ py ". " ++ summary ++ py " " ++ keywords).

(** [set(re.findall(r'\w+', text))] *)
Definition word_set (text : str) : gset str :=
  list_to_set (findall false (Plus (Chr isword)) text).

Definition keyword_overlap (query enhanced_text : str) : Q :=
  let query_words := word_set (lower query) in
  let section_words := word_set (lower enhanced_text) in
  Qdiv_nat (size (query_words ∩ section_words)) (Nat.max (size query_words) 1).

Definition keyword_bonus (query enhanced_text : str) : Q :=
  (keyword_overlap query enhanced_text * (2 # 10))%Q.

Definition heading_bonus (s : section) : Q :=
  let heading := heading_of s in
  ((if 2 <=? length (split heading) then 5 # 100 else 0)
   + (if existsb (fun word => contains (lower heading) (py word))
           ["method"; "result"; "analysis"; "approach"; "technique"]%string
      then 1 # 10 else 0))%Q.

Definition length_bonus (s : section) : Q :=
  Qmin (Qdiv_nat (length (split (summary_of s))) 100) (1 # 10).

(** The term of [total_score] that comes from keyword matching. *)
Definition keyword_component (query enhanced_text : str) : Q :=
  ((1 # 10) * keyword_bonus query enhanced_text)%Q.

(** The body of the scoring loop for the section at index [idx]. *)
Definition total_score (semantic_score tfidf_score : Q) (query enhanced_text : str)
    (position_bonus : Q) (s : section) : Q :=
  ((4 # 10) * semantic_score
   + (3 # 10) * tfidf_score
   + keyword_component query enhanced_text
   + (1 # 10) * position_bonus
   + (5 # 100) * heading_bonus s
   + (5 # 100) * length_bonus s)%Q.

(** [results.sort(reverse=True, key=lambda x: x[0])]: stable, descending. *)
Fixpoint insert_desc {A} (x : Q * A) (l : list (Q * A)) : list (Q * A) :=
  match l with
  | [] => [x]
  | y :: l' => if Qgtb (fst y) (fst x) then y :: insert_desc x l' else x :: l
  end.
Definition sort_desc {A} (l : list (Q * A)) : list (Q * A) :=
  fold_right insert_desc [] l.

Section Collaborators.
(** The TF-IDF vectorizer fitted on the corpus and the cosine
    similarities of the query with each text; [None] when it raises. *)
Variable tfidf_similarity : str -> list str -> option (list Q).
(** [self.model]: the sentence-embedding model, when it could be loaded;
    it gives the cosine similarities, or raises. *)
Variable model : option (str -> list str -> option (list Q)).

Definition score_sections (query : str) (sections : list section)
    : list (Q * section) :=
  if negb (truthy sections) then []
  else
    let clean_sections :=
      List.filter (fun s => truthy (strip (heading_of s))) sections in
    let corpus := map enhanced_text_of clean_sections in
    if negb (truthy corpus) then []
    else
      let position_bonuses := calculate_position_bonus clean_sections in
      let tfidf_scores :=
        match tfidf_similarity query corpus with
        | Some scores => scores
        | None => repeat 0%Q (length corpus)
        end in
      let semantic_scores :=
        match model with
        | Some encode => default tfidf_scores (encode query corpus)
        | None => tfidf_scores
        end in
      let results :=
        imap (fun idx s =>
                (total_score (default 0%Q (semantic_scores !! idx))
                             (default 0%Q (tfidf_scores !! idx))
                             query (default [] (corpus !! idx))
                             (default 0%Q (position_bonuses !! idx)) s, s))
             clean_sections in
      sort_desc results.
End Collaborators.

(** [set(heading.split())] *)
Definition token_set (heading : str) : gset str := list_to_set (split heading).

(** The test of the inner loop of [filter_duplicates] for one seen text. *)
Definition too_similar (similarity_threshold : Q) (heading seen_text : str) : bool :=
  let words1 := token_set heading in
  let words2 := token_set seen_text in
  if negb (bool_decide (words1 = ∅)) && negb (bool_decide (words2 = ∅)) then
    let overlap := Qdiv_nat (size (words1 ∩ words2)) (size (words1 ∪ words2)) in
    Qgtb overlap similarity_threshold
  else false.

Definition dedup_heading (s : section) : str := strip (lower (heading_of s)).

Definition filter_step (similarity_threshold : Q)
    (st : list (Q * section) * list str) (r : Q * section)
    : list (Q * section) * list str :=
  let '(filtered, seen_texts) := st in
  let heading := dedup_heading (snd r) in
  let is_duplicate := existsb (too_similar similarity_threshold heading) seen_texts in
  if negb is_duplicate then (filtered ++ [r], seen_texts ++ [heading])
  else st.

Definition filter_duplicates (ranked_results : list (Q * section))
    (similarity_threshold : Q) : list (Q * section) :=
  if negb (truthy ranked_results) then ranked_results
  else fst (fold_left (filter_step similarity_threshold) ranked_results ([], [])).

End RelevanceModel.

(** ** output_generator.py *)

Module OutputGenerator.

Record metadata := {
  input_documents : list str;
  persona : str;
  job_to_be_done : str;
  processing_timestamp : str
}.

Record extracted_section := {
  es_document : str;
  es_section_title : str;
  importance_rank : nat;
  es_page_number : Z
}.

Record subsection := {
  ss_document : str;
  refined_text : str;
  ss_page_number : Z
}.

(** The object dumped into [combined_output.json]. *)
Record output := {
  out_metadata : metadata;
  extracted_sections : list extracted_section;
  subsection_analysis : list subsection
}.

(** The three local variables of the selection. *)
Record selection := {
  doc_counts : gmap str nat;
  seen_sections : gset (str * str * Z);
  final_sections : list (Q * section)
}.

Definition max_sections : nat := 5.

Definition max_per_doc (documents : list str) : nat :=
  Nat.max 1 (max_sections / Nat.max (length documents) 1).

(** [section.get("section_title", "").strip()] *)
Definition stripped_title (s : section) : str := strip (default [] (section_title s)).

Definition section_key_of (doc : str) (s : section) : str * str * Z :=
  (doc, lower (stripped_title s), default 1%Z (page s)).

(** [section_title and len(section_title.strip()) >= 3] *)
Definition title_ok (section_title : str) : bool :=
  truthy section_title && (3 <=? length (strip section_title)).

Definition empty_selection : selection :=
  {| doc_counts := ∅; seen_sections := ∅; final_sections := [] |}.

(** The first loop, with its [continue]s and its [break]. *)
Fixpoint first_pass (quota : nat) (ranked_sections : list (Q * section))
    (st : selection) : option selection :=
  match ranked_sections with
  | [] => Some st
  | (score, s) :: rest =>
      doc ← document s;
      let section_key := section_key_of doc s in
      if bool_decide (section_key ∈ seen_sections st) then first_pass quota rest st
      else if quota <=? default 0 (doc_counts st !! doc) then first_pass quota rest st
      else if negb (title_ok (stripped_title s)) then first_pass quota rest st
      else
        let st' :=
          {| doc_counts := <[doc := default 0 (doc_counts st !! doc) + 1]> (doc_counts st);
             seen_sections := seen_sections st ∪ {[section_key]};
             final_sections := final_sections st ++ [(score, s)] |} in
        if max_sections <=? length (final_sections st') then Some st'
        else first_pass quota rest st'
  end.

(** The relaxation loop; [doc_counts] is no longer read or written. *)
Fixpoint relaxed_pass (remaining_slots : nat) (ranked_sections : list (Q * section))
    (st : selection) : option selection :=
  match ranked_sections with
  | [] => Some st
  | (score, s) :: rest =>
      if remaining_slots <=? 0 then Some st
      else
        doc ← document s;
        let section_key := section_key_of doc s in
        if bool_decide (section_key ∈ seen_sections st) then
          relaxed_pass remaining_slots rest st
        else if title_ok (stripped_title s) then
          relaxed_pass (remaining_slots - 1) rest
            {| doc_counts := doc_counts st;
               seen_sections := seen_sections st ∪ {[section_key]};
               final_sections := final_sections st ++ [(score, s)] |}
        else relaxed_pass remaining_slots rest st
  end.

(** Both passes: the value of [final_sections] when the output is built. *)
Definition select_sections (documents : list str) (ranked_sections : list (Q * section))
    : option selection :=
  st ← first_pass (max_per_doc documents) ranked_sections empty_selection;
  if (length (final_sections st) <? max_sections)
     && (length (final_sections st) <? length ranked_sections)
  then relaxed_pass (max_sections - length (final_sections st)) ranked_sections st
  else Some st.

Definition extracted_of (rank : nat) (r : Q * section) : option extracted_section :=
  doc ← document (snd r);
  Some {| es_document := doc;
          es_section_title := default (py "Unknown Section") (section_title (snd r));
          importance_rank := rank;
          es_page_number := default 1%Z (page (snd r)) |}.

(** [a or b] on strings *)
Definition str_or (a b : str) : str := if truthy a then a else b.

Definition refined_text_of (s : section) : str :=
  let refined_text :=
    strip (str_or (default [] (summary s))
             (str_or (default [] (context s)) (default [] (section_title s)))) in
  let refined_text :=
    if negb (truthy refined_text) || (length (split refined_text) <? 5)
    then py "Section covering: " ++ default (py "Unknown topic") (section_title s)
    else refined_text in
  let words := split refined_text in
  if 100 <? length words then join (py " ") (take 100 words) ++ py "..."
  else refined_text.

Definition subsection_of (r : Q * section) : option subsection :=
  doc ← document (snd r);
  Some {| ss_document := doc;
          refined_text := refined_text_of (snd r);
          ss_page_number := default 1%Z (page (snd r)) |}.

(** [now] is [datetime.utcnow().isoformat()].  The result is what is
    written to the output file; [None] is a [KeyError] on ["document"]. *)
Definition generate_combined_output (documents : list str) (persona job : str)
    (ranked_sections : list (Q * section)) (now : str) : option output :=
  let meta :=
    {| input_documents := documents; persona := persona; job_to_be_done := job;
       processing_timestamp := now ++ py "Z" |} in
  if negb (truthy ranked_sections) then
    Some {| out_metadata := meta; extracted_sections := []; subsection_analysis := [] |}
  else
    st ← select_sections documents ranked_sections;
    extracted ← mapM (fun '(i, r) => extracted_of (S i) r)
                     (imap (fun i r => (i, r)) (final_sections st));
    analysis ← mapM subsection_of (final_sections st);
    Some {| out_metadata := meta; extracted_sections := extracted;
            subsection_analysis := analysis |}.

End OutputGenerator.

(** ** main.py *)

Module Main.
Import PdfParser RelevanceModel OutputGenerator.

Definition skip_headings : list str :=
  map py ["acknowledgment"; "acknowledgments"; "references"; "bibliography";
          "table of contents"; "index"; "appendix"; "glossary";
          "about the author"; "about this book"; "copyright";
          "introduction"; "preface"; "foreword"]%string.

Definition validate_section (s : section) : bool :=
  let heading := strip (heading_of s) in
  let context := strip (default [] (context s)) in
  if negb (truthy heading) || negb (truthy context) then false
  else if length (split heading) <? 2 then false
  else if length (split context) <? 10 then false
  else if existsb (str_eqb (strip (lower heading))) skip_headings then false
  else true.

(** [section["document"] = filename], and the ["text"] key when missing. *)
Definition tag_section (filename : str) (s : section) : section :=
  {| section_title := section_title s; context := context s; summary := summary s;
     page := page s;
     text := match text s with
             | Some t => Some t
             | None => Some (default [] (section_title s))
             end;
     document := Some filename |}.

Section Pipeline.
Variable sent_tokenize : str -> list str.
Variable fit_transform : list str -> option (list (list Q)).
Variable argsort : list Q -> list nat.
Variable tfidf_similarity : str -> list str -> option (list Q).
Variable model : option (str -> list str -> option (list Q)).

Definition extract (doc : pdf_document) : option (list section) :=
  extract_headings_with_context
    (fun text => Summarizer.summarize_text sent_tokenize fit_transform argsort text 3)
    doc.

(** One iteration over [os.listdir(input_dir)]: a file name and the
    document PyMuPDF opens for it, [None] when it cannot. *)
Definition process_file (acc : list section * list str)
    (file : str * option pdf_document) : list section * list str :=
  let '(all_sections, document_list) := acc in
  let '(filename, pdf) := file in
  if endswith filename (py ".pdf") then
    match pdf ≫= extract with
    | Some sections =>
        let valid_sections :=
          map (tag_section filename) (List.filter validate_section sections) in
        (all_sections ++ valid_sections, document_list ++ [filename])
    | None => acc
    end
  else acc.

(** The scoring block never raises in this model (the collaborators'
    failures are caught inside [score_sections]), so the [except] branch
    of [main] is not reached. *)
Definition main (listing : list (str * option pdf_document))
    (persona job now : str) : option output :=
  let '(all_sections, document_list) := fold_left process_file listing ([], []) in
  if negb (truthy all_sections) then
    generate_combined_output document_list persona job [] now
  else
    let enhanced_query := py "Persona: " ++ persona ++ py ". Task: " ++ job in
    let ranked := score_sections tfidf_similarity model enhanced_query all_sections in
    let ranked := filter_duplicates ranked (7 # 10) in
    generate_combined_output document_list persona job ranked now.
End Pipeline.

End Main.

(** * Vocabulary of the statements *)

Module Vocabulary.
Import PdfParser RelevanceModel OutputGenerator.

(** The characters that end a sentence. *)
Definition terminal_chars : str := py ".!?;".

(** The texts the duplicate filter has seen once it has kept [filtered]. *)
Definition seen_of (filtered : list (Q * section)) : list str :=
  map (fun r => dedup_heading (snd r)) filtered.

(** A list is settled when the duplicate filter, run on it, keeps all of it. *)
Definition settled (similarity_threshold : Q) (filtered : list (Q * section)) : Prop :=
  fold_left (filter_step similarity_threshold) filtered ([], [])
  = (filtered, seen_of filtered).

(** [ceil(a / b)] for a positive [b]. *)
Definition ceil_div (a b : nat) : nat := (a + b - 1) / b.

(** The number of picks that come from document [d]. *)
Definition from_document (d : str) (r : Q * section) : bool :=
  bool_decide (document (snd r) = Some d).
Definition contribution (d : str) (picks : list (Q * section)) : nat :=
  length (List.filter (from_document d) picks).

(** Scores in descending order. *)
Fixpoint score_descending (scores : list Q) : bool :=
  match scores with
  | a :: (b :: _) as rest => Qle_bool b a && score_descending rest
  | _ => true
  end.

(** The counters of the first pass agree with its picks and stay within
    the quota. *)
Definition counted (quota : nat) (st : selection) : Prop :=
  forall d : str,
    contribution d (final_sections st) = default 0 (doc_counts st !! d)
    /\ default 0 (doc_counts st !! d) <= quota.

(** A section as the parser and [main] build it. *)
Definition sample_section (doc title body : string) (page_number : Z) : section :=
  {| section_title := Some (py title); context := Some (py body);
     summary := Some (py body); page := Some page_number;
     text := Some (py title); document := Some (py doc) |}.

(** Two documents, three good sections in the first and one in the second. *)
Definition two_documents : list str := [py "a.pdf"; py "b.pdf"].
Definition four_sections : list (Q * section) :=
  [ (9 # 10, sample_section "a.pdf" "Alpha One" "one two three four five six" 1);
    (8 # 10, sample_section "a.pdf" "Alpha Two" "one two three four five six" 2);
    (7 # 10, sample_section "a.pdf" "Alpha Three" "one two three four five six" 3);
    (6 # 10, sample_section "b.pdf" "Beta One" "one two three four five six" 1) ]%Q.

(** The classifier of a document: [is_heading] with its body font. *)
Definition classifier (doc : pdf_document) : span_data -> bool :=
  match body_font doc with
  | Some (body_size, body_is_bold) => is_heading body_size body_is_bold
  | None => fun _ => false
  end.

(** The number of heading-accepted lines that are followed by at least
    one non-heading line before the next heading-accepted line or the end
    of the stream: those whose next line exists and is not a heading. *)
Fixpoint headings_with_body (heading : span_data -> bool) (lines : list span_data) : nat :=
  match lines with
  | [] => 0
  | sd :: rest =>
      (if heading sd
          && match rest with next :: _ => negb (heading next) | [] => false end
       then 1 else 0)
      + headings_with_body heading rest
  end.

(** A string with a character that is not white space. *)
Definition has_text (s : str) : Prop := Exists (fun c => isspace c = false) s.

(** What the open section adds to the final count when the lines [rest]
    are still to come. *)
Definition pending (heading : span_data -> bool) (st : assembler)
    (rest : list span_data) : nat :=
  if heading_truthy (current_heading st) then
    if truthy (current_context st) then 1
    else match rest with
         | next :: _ => if heading next then 0 else 1
         | [] => 0
         end
  else 0.

(** Sample behaviours of the collaborators, to run the model on concrete
    inputs: sentences end at a full stop, the weight of a term is its
    length, and the argsort is a stable insertion sort. *)
Definition sample_sent_tokenize (text : str) : list str :=
  List.filter truthy
    (map strip (Re.findall false
                  (Re.Seq (Re.Plus (Re.NoneOf (py "."))) (Re.Opt (Re.Lit1 46)))
                  text)).
Definition sample_fit_transform (sentences : list str) : option (list (list Q)) :=
  Some (map (fun s => map (fun w => inject_Z (Z.of_nat (length w))) (split s)) sentences).
Fixpoint insert_asc (v : list Q) (i : nat) (sorted : list nat) : list nat :=
  match sorted with
  | [] => [i]
  | j :: rest =>
      if Qle_bool (nth i v 0%Q) (nth j v 0%Q) then i :: sorted
      else j :: insert_asc v i rest
  end.
Definition sample_argsort (v : list Q) : list nat :=
  fold_right (insert_asc v) [] (seq 0 (length v)).
Definition sample_extract : pdf_document -> option (list section) :=
  Main.extract sample_sent_tokenize sample_fit_transform sample_argsort.

Definition sample_span (content : string) (size : Z) (flags : Z) : span :=
  {| span_text := py content; span_size := Q2Qc (inject_Z size); span_flags := flags |}.

(** A page with a bold 14pt heading over a body of two lines, a heading
    without body, and a heading over a body of two words. *)
Definition short_body_document : pdf_document :=
  [[ {| block_lines := Some
          [ [sample_span "Results Overview" 14 16];
            [sample_span "one two three four five six" 10 0];
            [sample_span "seven eight." 10 0];
            [sample_span "Empty Heading" 14 16];
            [sample_span "Short Body" 14 16];
            [sample_span "too short" 10 0] ] |} ]].

(** The lines of a document, in the order in which they are processed. *)
Definition doc_lines (doc : pdf_document) : list pdf_line :=
  flat_map (fun p => flat_map (fun b => default [] (block_lines b)) p) doc.

Definition span_key (sp : span) : font_key := (span_size sp, is_bold (span_flags sp)).

(** What a span does to [font_stats]. *)
Definition add_span (font_stats : list (font_key * nat)) (sp : span)
    : list (font_key * nat) :=
  if truthy (strip (span_text sp))
  then dict_add (span_key sp) (length (split (strip (span_text sp)))) font_stats
  else font_stats.

Definition add_lines (font_stats : list (font_key * nat)) (lines : list pdf_line)
    : list (font_key * nat) :=
  fold_left (fun fs ln => fold_left add_span ln fs) lines font_stats.

(** The invariant of the first loop nest: every collected line has text,
    and lines are collected only once a font has been counted. *)
Definition collected (st : list span_data * list (font_key * nat)) : Prop :=
  Forall (fun sd => has_text (sd_text sd)) (fst st) /\ (snd st = [] -> fst st = []).

(** The words a span, a line and a list of lines have in font [k]. *)
Definition span_words (k : font_key) (sp : span) : nat :=
  if truthy (strip (span_text sp)) && bool_decide (span_key sp = k)
  then length (split (strip (span_text sp))) else 0.
Definition line_words (k : font_key) (ln : pdf_line) : nat :=
  fold_right (fun sp n => span_words k sp + n) 0 ln.
Definition aggregate_words (k : font_key) (lines : list pdf_line) : nat :=
  fold_right (fun ln n => line_words k ln + n) 0 lines.

(** Two documents with the same two one-word lines, in opposite orders. *)
Definition tie_document : pdf_document :=
  [[ {| block_lines := Some [ [sample_span "alpha" 10 0]; [sample_span "beta" 12 0] ] |} ]].
Definition tie_document_reordered : pdf_document :=
  [[ {| block_lines := Some [ [sample_span "beta" 12 0]; [sample_span "alpha" 10 0] ] |} ]].

(** Two documents with the same lines in opposite orders: a body line of
    two words at 10pt and a line of one word at 12pt. *)
Definition majority_document : pdf_document :=
  [[ {| block_lines := Some [ [sample_span "alpha beta" 10 0]; [sample_span "Gamma" 12 0] ] |} ]].
Definition majority_document_reordered : pdf_document :=
  [[ {| block_lines := Some [ [sample_span "Gamma" 12 0]; [sample_span "alpha beta" 10 0] ] |} ]].

Definition weight (importance : list Q) (i : nat) : Q := nth i importance 0%Q.

(** What [np.argsort] promises of its result [order]: along it the
    values do not decrease. *)
Fixpoint ascending (importance : list Q) (order : list nat) : bool :=
  match order with
  | i :: (j :: _) as rest =>
      Qle_bool (weight importance i) (weight importance j) && ascending importance rest
  | _ => true
  end.

Definition no_heavier (importance : list Q) (i j : nat) : Prop :=
  (weight importance i <= weight importance j)%Q.

(** Four sentences; the second and the fourth have the longest words. *)
Definition four_sentences : str :=
  py "It is so. Summarisation condenses paragraphs. We do it. Extraction preserves ordering.".

(** [|queryWords ∩ sectionWords| / max(|queryWords|, 1)], the word sets
    being those of the lower-cased query and enhanced text. *)
Definition overlap_ratio (query enhanced_text : str) : Q :=
  let queryWords := word_set (lower query) in
  let sectionWords := word_set (lower enhanced_text) in
  (inject_Z (Z.of_nat (size (queryWords ∩ sectionWords)))
   / inject_Z (Z.of_nat (Nat.max (size queryWords) 1)))%Q.

(** The composite score without its keyword term. *)
Definition other_components (semantic_score tfidf_score position_bonus : Q)
    (s : section) : Q :=
  ((4 # 10) * semantic_score + (3 # 10) * tfidf_score + (1 # 10) * position_bonus
   + (5 # 100) * heading_bonus s + (5 # 100) * length_bonus s)%Q.

(** A similarity collaborator that answers one half for every text. *)
Definition sample_tfidf_similarity (query : str) (corpus : list str) : option (list Q) :=
  Some (map (fun _ => (1 # 2)%Q) corpus).

(** What [main] has gathered when it tests [all_sections]. *)
Definition gathered (sent_tokenize : str -> list str)
    (fit_transform : list str -> option (list (list Q)))
    (argsort : list Q -> list nat)
    (listing : list (str * option pdf_document)) : list section * list str :=
  fold_left (Main.process_file sent_tokenize fit_transform argsort) listing ([], []).

(** An input directory with a PDF whose only section is too short to be
    valid, a file that is not a PDF, and a PDF that cannot be opened. *)
Definition barren_listing : list (str * option pdf_document) :=
  [ (py "short.pdf", Some short_body_document);
    (py "notes.txt", None);
    (py "broken.pdf", None) ].

(** The key under which the selection remembers a pick. *)
Definition pick_key (r : Q * section) : str * str * Z :=
  section_key_of (default [] (document (snd r))) (snd r).

(** A pick has a document and a title of at least three characters. *)
Definition eligible (r : Q * section) : Prop :=
  title_ok (stripped_title (snd r)) = true /\ is_Some (document (snd r)).

(** The picks have distinct keys, all of them in [seen_sections]. *)
Definition keyed (st : selection) : Prop :=
  NoDup (map pick_key (final_sections st))
  /\ forall r, r ∈ final_sections st -> pick_key r ∈ seen_sections st.

(** An output record is the record of a pick. *)
Definition record_of (r : Q * section) (e : extracted_section) : Prop :=
  document (snd r) = Some (es_document e)
  /\ es_section_title e = default (py "Unknown Section") (section_title (snd r))
  /\ es_page_number e = default 1%Z (page (snd r)).

(** The identity of an output record: document, trimmed title without
    case, page. *)
Definition record_key (e : extracted_section) : str * str * Z :=
  (es_document e, lower (strip (es_section_title e)), es_page_number e).

(** The output for [four_sections], or a blank one. *)
Definition blank_output : output :=
  {| out_metadata := {| input_documents := []; persona := []; job_to_be_done := [];
                        processing_timestamp := [] |};
     extracted_sections := []; subsection_analysis := [] |}.
Definition four_sections_output : output :=
  default blank_output
    (generate_combined_output two_documents (py "Student") (py "Learn basics")
       four_sections (py "2025-01-01T00:00:00")).

(** No kept section is too similar to one kept before it. *)
Definition clean (similarity_threshold : Q) (filtered : list (Q * section)) : Prop :=
  forall l1 a l2,
    filtered = l1 ++ a :: l2 ->
    existsb (too_similar similarity_threshold (dedup_heading (snd a))) (seen_of l1)
    = false.

(** Three sections of one document; the second repeats the heading of the
    first in another case. *)
Definition duplicate_sections : list (Q * section) :=
  [ (9 # 10, sample_section "a.pdf" "Results Overview" "one two three four five six" 1);
    (85 # 100, sample_section "a.pdf" "Results overview" "one two three four five six" 2);
    (3 # 10, sample_section "a.pdf" "Other Findings" "one two three four five six" 3) ]%Q.

(** A section whose heading keeps no token, and two of them. *)
Definition untitled_section (page_number : Z) : section :=
  {| section_title := Some (py "  "); context := Some (py "one two three");
     summary := Some (py "one two three"); page := Some page_number;
     text := Some (py "  "); document := Some (py "a.pdf") |}.
Definition untitled_sections : list (Q * section) :=
  [ (9 # 10, untitled_section 1); (8 # 10, untitled_section 2) ]%Q.

(** The sections that [score_sections] scores: those with a heading. *)
Definition has_heading (s : section) : bool := truthy (strip (heading_of s)).

(** A section built from one of the heading-accepted lines of [lines]:
    its title, text and page are those of the line, and it has no document
    yet. *)
Definition headed_by (heading : span_data -> bool) (lines : list span_data)
    (s : section) : Prop :=
  exists sd,
    sd ∈ lines /\ heading sd = true
    /\ section_title s = Some (sd_text sd) /\ text s = Some (sd_text sd)
    /\ page s = Some (sd_page sd) /\ document s = None.

(** The summary of a section is its body up to 40 words, and the result
    of the summarizer beyond. *)
Definition summarized_by (summarize : str -> option str) (s : section) : Prop :=
  exists body,
    context s = Some body
    /\ summary s = if 40 <? length (split body) then summarize body else Some body.

(** The open heading of the assembler is a heading-accepted line. *)
Definition assembling (summarize : str -> option str) (heading : span_data -> bool)
    (lines : list span_data) (st : assembler) : Prop :=
  Forall (fun s => headed_by heading lines s /\ summarized_by summarize s) (sections st)
  /\ forall h, current_heading st = Some h ->
       exists sd, sd ∈ lines /\ heading sd = true /\ h = sd_text sd
                  /\ current_page st = Some (sd_page sd).

(** The characters that [split] keeps. *)
Definition nonspace (c : char) : bool := negb (isspace c).

(** A word: a non-empty string without white space. *)
Definition is_word (w : str) : Prop :=
  w <> [] /\ Forall (fun c => isspace c = false) w.

(** What [main] keeps true of [all_sections] and [document_list] while
    it reads the files of [listing]. *)
Definition gathering (extract : pdf_document -> option (list section))
    (listing : list (str * option pdf_document))
    (acc : list section * list str) : Prop :=
  Forall (fun s => Main.validate_section s = true
                   /\ exists d, document s = Some d /\ d ∈ snd acc) (fst acc)
  /\ Forall (fun d => endswith d (py ".pdf") = true
                      /\ exists pdf, (d, Some pdf) ∈ listing /\ is_Some (extract pdf))
       (snd acc).

(** An input directory with a PDF that yields one valid section. *)
Definition long_body_document : pdf_document :=
  [[ {| block_lines := Some
          [ [sample_span "Results Overview" 14 16];
            [sample_span "one two three four five six" 10 0];
            [sample_span "seven eight nine ten eleven twelve" 10 0] ] |} ]].
Definition fruitful_listing : list (str * option pdf_document) :=
  [ (py "long.pdf", Some long_body_document);
    (py "notes.txt", Some short_body_document);
    (py "broken.pdf", None) ].

(** What [main] writes for [fruitful_listing], or a blank output. *)
Definition fruitful_output : output :=
  default blank_output
    (Main.main sample_sent_tokenize sample_fit_transform sample_argsort
       sample_tfidf_similarity None fruitful_listing
       (py "Student") (py "Learn basics") (py "2025-01-01T00:00:00")).

(** Every remembered key is the key of a pick. *)
Definition covered (st : selection) : Prop :=
  forall k, k ∈ seen_sections st -> k ∈ map pick_key (final_sections st).

(** The whitespace-normalised text: its words, separated by single
    spaces. *)
Definition whitespace_normalized (text : str) : str := join (py " ") (split text).

(** The summed term weights of the sentences: for each row of the matrix
    of weights, the sum of its entries. *)
Fixpoint sum_weights (row : list Q) : Q :=
  match row with
  | [] => 0%Q
  | w :: rest => (w + sum_weights rest)%Q
  end.
Definition summed_weights (X : list (list Q)) : list Q := map sum_weights X.

(** The loop of the matcher on a starred expression, by name. *)
Definition star_loop {A} (ic : bool) (r : Re.re) (k : option char -> str -> option A)
    : nat -> option char -> str -> option A :=
  fix loop (fuel : nat) (prev : option char) (s : str) : option A :=
    match fuel with
    | 0 => k prev s
    | S fuel' =>
        match Re.run ic r prev s
                (fun p' s' => if length s' <? length s then loop fuel' p' s' else None) with
        | Some x => Some x
        | None => k prev s
        end
    end.

(** A text with every run of white space replaced by one space; [in_space]
    says that the run has begun. *)
Fixpoint squeeze (in_space : bool) (s : str) : str :=
  match s with
  | [] => []
  | c :: rest =>
      if isspace c then
        if in_space then squeeze true rest else 32%N :: squeeze true rest
      else c :: squeeze false rest
  end.

(** The text a scan is rewritten to when its matches are replaced. *)
Definition replaced (repl : str) (entries : list (str * option str)) : str :=
  concat (map (fun '(skipped, m) =>
                 skipped ++ match m with Some _ => repl | None => [] end)
              entries).

End Vocabulary.
Export Vocabulary.

(** * Properties *)

(** ** Strings *)

Section StringFacts.

Lemma lstrip_snoc (pre : str) (c : char) :
  isspace c = false -> exists pre', lstrip (pre ++ [c]) = pre' ++ [c].
Proof.
  intros Hc. induction pre as [|a pre IH]; simpl.
  - rewrite Hc. now exists [].
  - destruct (isspace a).
    + exact IH.
    + now exists (a :: pre).
Qed.

Lemma strip_snoc (pre : str) (c : char) :
  isspace c = false -> exists pre', strip (pre ++ [c]) = pre' ++ [c].
Proof.
  intros Hc. unfold strip, rstrip.
  destruct (lstrip_snoc pre c Hc) as [pre' ->].
  exists pre'. rewrite rev_app_distr. simpl. rewrite Hc. simpl.
  now rewrite rev_involutive.
Qed.

Lemma endswith_snoc (s : str) (c : char) : endswith (s ++ [c]) [c] = true.
Proof.
  unfold endswith. rewrite rev_app_distr. simpl. rewrite N.eqb_refl.
  now destruct (rev s).
Qed.

Lemma lstrip_nonspace (s : str) :
  Exists (fun c => isspace c = false) s -> truthy (lstrip s) = true.
Proof.
  induction 1 as [c s Hc|c s _ IH]; simpl.
  - now rewrite Hc.
  - destruct (isspace c); [exact IH|reflexivity].
Qed.

Lemma lstrip_suffix (s : str) : exists pre, s = pre ++ lstrip s /\ Forall (fun c => isspace c = true) pre.
Proof.
  induction s as [|c s [pre [IH1 IH2]]]; simpl.
  - exists []. split; [reflexivity|constructor].
  - destruct (isspace c) eqn:Hc.
    + exists (c :: pre). split; [simpl; congruence|now constructor].
    + exists []. split; [reflexivity|constructor].
Qed.

Lemma Exists_nonspace_lstrip (s : str) :
  Exists (fun c => isspace c = false) s -> Exists (fun c => isspace c = false) (lstrip s).
Proof.
  intros H. destruct (lstrip_suffix s) as [pre [E Hpre]].
  rewrite E in H. apply Exists_app in H. destruct H as [H|H]; [|exact H].
  exfalso. apply Exists_exists in H. destruct H as [c [Hin Hc]].
  rewrite Forall_forall in Hpre. rewrite (Hpre c Hin) in Hc. discriminate.
Qed.

(** A string with a character that is not white space does not strip to
    the empty string. *)
Lemma strip_nonspace (s : str) :
  Exists (fun c => isspace c = false) s -> truthy (strip s) = true.
Proof.
  intros H. unfold strip, rstrip.
  apply Exists_nonspace_lstrip in H.
  assert (H' : Exists (fun c => isspace c = false) (rev (lstrip s))).
  { apply Exists_exists in H. destruct H as [c [Hin Hc]].
    apply Exists_exists. exists c. split; [|exact Hc].
    apply list_elem_of_In. rewrite <- in_rev. now apply list_elem_of_In. }
  apply lstrip_nonspace in H'.
  destruct (lstrip (rev (lstrip s))) as [|a l]; [discriminate|].
  simpl. destruct (rev l); reflexivity.
Qed.

Lemma lstrip_head (s : str) (c : char) (s' : str) :
  lstrip s = c :: s' -> isspace c = false.
Proof.
  induction s as [|a s IH]; simpl; [discriminate|].
  destruct (isspace a) eqn:Ha; [exact IH|].
  intros [= -> _]. exact Ha.
Qed.

(** Conversely, what is left after stripping has such a character. *)
Lemma strip_truthy_nonspace (s : str) :
  truthy (strip s) = true -> Exists (fun c => isspace c = false) (strip s).
Proof.
  unfold strip, rstrip.
  destruct (lstrip (rev (lstrip s))) as [|c l] eqn:E; [discriminate|].
  intros _. apply lstrip_head in E.
  apply Exists_exists. exists c. split; [|exact E].
  apply list_elem_of_In. rewrite <- in_rev. now left.
Qed.

End StringFacts.

(** ** The heading classifier *)

Section HeadingClassifier.
Import PdfParser.

Lemma terminal_not_space (c : char) : In c terminal_chars -> isspace c = false.
Proof.
  intros H. repeat (destruct H as [<-|H]; [reflexivity|]). destruct H.
Qed.

Lemma endswith_terminal (s : str) (c : char) :
  In c terminal_chars -> endswith_any (s ++ [c]) terminal_punctuation = true.
Proof.
  intros H. unfold endswith_any.
  apply existsb_exists. exists [c]. split; [|apply endswith_snoc].
  repeat (destruct H as [<-|H]; [simpl; tauto|]). destruct H.
Qed.

(** C8. A line whose text ends in '.', '!', '?' or ';' is never accepted
    as a heading, whatever the body font, the spans of the line (their
    size and boldness) and the page. *)
Theorem is_heading_rejects_terminal_punctuation
    (body_size : Qc) (body_is_bold : bool)
    (pre : str) (c : char) (spans : list span) (page_number : Z) :
  In c terminal_chars ->
  is_heading body_size body_is_bold
    {| sd_text := pre ++ [c]; sd_spans := spans; sd_page := page_number |} = false.
Proof.
  intros Hc. unfold is_heading. cbn [sd_text sd_spans].
  destruct (strip_snoc pre c (terminal_not_space c Hc)) as [pre' ->].
  destruct (is_bullet_point _); [reflexivity|].
  destruct (negb _ || _); [reflexivity|].
  destruct (20 <? _); [reflexivity|].
  now rewrite (endswith_terminal pre' c Hc).
Qed.

Lemma is_heading_rejects_terminal_punctuation_witness :
  is_heading (Q2Qc 10) false
    {| sd_text := py "Key Findings" ++ [46%N];
       sd_spans := [{| span_text := py "Key Findings."; span_size := Q2Qc 18;
                       span_flags := 16 |}];
       sd_page := 1 |} = false.
Proof.
  apply (is_heading_rejects_terminal_punctuation
           (Q2Qc 10) false (py "Key Findings") 46%N).
  simpl. tauto.
Defined.

End HeadingClassifier.

(** ** The duplicate filter *)

Section DuplicateFilter.
Import RelevanceModel.
Variable similarity_threshold : Q.

Lemma settled_nil : settled similarity_threshold [].
Proof. reflexivity. Qed.

Lemma filter_step_settled filtered r :
  settled similarity_threshold filtered ->
  exists filtered',
    filter_step similarity_threshold (filtered, seen_of filtered) r
    = (filtered', seen_of filtered') /\ settled similarity_threshold filtered'.
Proof.
  intros Hs. unfold filter_step.
  destruct (existsb _ (seen_of filtered)) eqn:Hdup; simpl.
  - now exists filtered.
  - exists (filtered ++ [r]). split.
    + unfold seen_of. now rewrite map_app.
    + unfold settled. rewrite fold_left_app, Hs. simpl.
      unfold filter_step. rewrite Hdup. simpl.
      unfold seen_of. now rewrite map_app.
Qed.

Lemma fold_filter_settled ranked filtered :
  settled similarity_threshold filtered ->
  exists filtered',
    fold_left (filter_step similarity_threshold) ranked (filtered, seen_of filtered)
    = (filtered', seen_of filtered') /\ settled similarity_threshold filtered'.
Proof.
  revert filtered.
  induction ranked as [|r ranked IH]; intros filtered Hs; cbn [fold_left].
  - now exists filtered.
  - destruct (filter_step_settled filtered r Hs) as [f' [-> Hs']].
    now apply IH.
Qed.

Lemma filter_duplicates_settled ranked :
  settled similarity_threshold (filter_duplicates ranked similarity_threshold).
Proof.
  unfold filter_duplicates. destruct ranked as [|r ranked]; [exact settled_nil|].
  cbn [truthy negb].
  destruct (fold_filter_settled (r :: ranked) [] settled_nil) as [f' [E Hs]].
  change (seen_of []) with (@nil str) in E. now rewrite E.
Qed.
End DuplicateFilter.

(** C5. The duplicate filter is idempotent: run on its own output with the
    same threshold, it returns that output.  This holds for every list of
    scored sections, score-descending or not. *)
Theorem filter_duplicates_idempotent
    (ranked_results : list (Q * section)) (similarity_threshold : Q) :
  RelevanceModel.filter_duplicates
    (RelevanceModel.filter_duplicates ranked_results similarity_threshold)
    similarity_threshold
  = RelevanceModel.filter_duplicates ranked_results similarity_threshold.
Proof.
  pose proof (filter_duplicates_settled similarity_threshold ranked_results) as Hs.
  set (out := RelevanceModel.filter_duplicates ranked_results similarity_threshold) in *.
  unfold RelevanceModel.filter_duplicates at 1.
  destruct out as [|r out]; [reflexivity|].
  cbn [truthy negb]. unfold settled in Hs. now rewrite Hs.
Qed.

(** ** The diversity selector *)

Section DiversitySelector.
Import OutputGenerator.

Lemma contribution_snoc d picks r :
  contribution d (picks ++ [r])
  = contribution d picks + (if from_document d r then 1 else 0).
Proof.
  unfold contribution. rewrite List.filter_app, length_app. simpl.
  now destruct (from_document d r).
Qed.

Lemma counted_empty quota : counted quota empty_selection.
Proof.
  intros d. simpl. rewrite lookup_empty. simpl. split; [reflexivity|lia].
Qed.

(** Accepting a section of a document below its quota keeps the
    counters right. *)
Lemma counted_accept quota st score s doc key :
  counted quota st ->
  document s = Some doc ->
  (quota <=? default 0 (doc_counts st !! doc)) = false ->
  counted quota
    {| doc_counts := <[doc := default 0 (doc_counts st !! doc) + 1]> (doc_counts st);
       seen_sections := seen_sections st ∪ {[key]};
       final_sections := final_sections st ++ [(score, s)] |}.
Proof.
  intros Hc Hdoc Hq d. apply Nat.leb_gt in Hq.
  destruct (Hc d) as [Hn Hle]. cbn [final_sections doc_counts].
  rewrite contribution_snoc. unfold from_document. cbn [snd].
  destruct (decide (doc = d)) as [->|Hne].
  - rewrite lookup_insert_eq. cbn [default from_option id].
    rewrite bool_decide_eq_true_2 by exact Hdoc. lia.
  - rewrite lookup_insert_ne by exact Hne.
    rewrite bool_decide_eq_false_2 by congruence. lia.
Qed.

Lemma first_pass_counted quota ranked st st' :
  counted quota st ->
  first_pass quota ranked st = Some st' ->
  counted quota st'.
Proof.
  revert st. induction ranked as [|[score s] ranked IH]; intros st Hc; simpl.
  - now intros [= <-].
  - destruct (document s) as [doc|] eqn:Hdoc; [|discriminate]. simpl.
    destruct (bool_decide _); [now apply IH|].
    destruct (quota <=? _) eqn:Hq; [now apply IH|].
    destruct (negb _); [now apply IH|].
    pose proof (counted_accept quota st score s doc
                  (section_key_of doc s) Hc Hdoc Hq) as Hc'.
    match goal with |- (if ?b then _ else _) = _ -> _ => destruct b end.
    + now intros [= <-].
    + now apply IH.
Qed.

(** The quota of the code, [max(1, 5 // n)], is at most [ceil(5 / n)]. *)
Lemma max_per_doc_le_ceil documents :
  documents <> [] ->
  max_per_doc documents <= ceil_div max_sections (length documents).
Proof.
  intros Hne. unfold max_per_doc, ceil_div, max_sections.
  assert (Hn : 1 <= length documents) by (destruct documents; [congruence|simpl; lia]).
  rewrite (Nat.max_l (length documents) 1) by lia.
  apply Nat.max_lub.
  - apply Nat.div_le_lower_bound; lia.
  - apply Nat.Div0.div_le_mono. lia.
Qed.

Lemma relaxed_pass_appends slots ranked st st' :
  relaxed_pass slots ranked st = Some st' ->
  exists relaxed, final_sections st' = final_sections st ++ relaxed.
Proof.
  revert slots st. induction ranked as [|[score s] ranked IH]; intros slots st; simpl.
  - intros [= <-]. exists []. now rewrite app_nil_r.
  - destruct (slots <=? 0).
    { intros [= <-]. exists []. now rewrite app_nil_r. }
    destruct (document s) as [doc|]; [|discriminate]. simpl.
    destruct (bool_decide _); [apply IH|].
    destruct (title_ok _); [|apply IH].
    intros H. apply IH in H. destruct H as [relaxed H]. simpl in H.
    exists ((score, s) :: relaxed). now rewrite H, <- app_assoc.
Qed.
(** The first pass raises only on a section without a document. *)
Lemma first_pass_total quota ranked st :
  Forall (fun r => is_Some (document (snd r))) ranked ->
  is_Some (first_pass quota ranked st).
Proof.
  intros H. revert st. induction H as [|[score s] ranked [doc Hdoc] _ IH]; intros st; simpl.
  - now exists st.
  - simpl in Hdoc. rewrite Hdoc. simpl.
    destruct (bool_decide _); [apply IH|].
    destruct (quota <=? _); [apply IH|].
    destruct (negb _); [apply IH|].
    match goal with |- is_Some (if ?b then _ else _) => destruct b end.
    + eexists. reflexivity.
    + apply IH.
Qed.
End DiversitySelector.

(** C1. In the first (non-relaxed) pass of the selection no document
    contributes more than [ceil(maxSections / documentCount)] picks, where
    [maxSections] is 5 and the document count is that of the (non-empty)
    list of source documents. *)
Theorem first_pass_respects_quota
    (documents : list str) (ranked_sections : list (Q * section))
    (st : OutputGenerator.selection) :
  documents <> [] ->
  OutputGenerator.first_pass (OutputGenerator.max_per_doc documents)
    ranked_sections OutputGenerator.empty_selection = Some st ->
  forall d : str,
    contribution d (OutputGenerator.final_sections st)
    <= ceil_div OutputGenerator.max_sections (length documents).
Proof.
  intros Hne Hpass d.
  pose proof (first_pass_counted _ _ _ _ (counted_empty _) Hpass d) as [Hn Hle].
  pose proof (max_per_doc_le_ceil documents Hne). lia.
Qed.

Lemma first_pass_respects_quota_witness :
  contribution (py "a.pdf")
    [ (9 # 10, sample_section "a.pdf" "Alpha One" "one two three four five six" 1);
      (8 # 10, sample_section "a.pdf" "Alpha Two" "one two three four five six" 2);
      (6 # 10, sample_section "b.pdf" "Beta One" "one two three four five six" 1) ]%Q
  <= 3.
Proof.
  apply (first_pass_respects_quota two_documents four_sections
           (default OutputGenerator.empty_selection
              (OutputGenerator.first_pass 2 four_sections OutputGenerator.empty_selection))).
  - discriminate.
  - vm_compute. reflexivity.
Defined.

(** C10. The picks of the relaxation pass are appended after all the picks
    of the first pass, and the final order can therefore differ from the
    score order: on [four_sections], which is score-descending, the section
    with score 0.7 is skipped in the first pass because its document is at
    its quota, is admitted by the relaxation pass, and gets rank 4, behind
    the section with score 0.6 (rank 3) that the first pass accepted. *)
Theorem relaxation_picks_ranked_last :
  (forall documents ranked_sections st,
     OutputGenerator.select_sections documents ranked_sections = Some st ->
     exists st1 relaxed,
       OutputGenerator.first_pass (OutputGenerator.max_per_doc documents)
         ranked_sections OutputGenerator.empty_selection = Some st1
       /\ OutputGenerator.final_sections st
          = OutputGenerator.final_sections st1 ++ relaxed)
  /\ score_descending (map fst four_sections) = true
  /\ (fun st => map fst (OutputGenerator.final_sections st))
       <$> OutputGenerator.first_pass (OutputGenerator.max_per_doc two_documents)
             four_sections OutputGenerator.empty_selection
     = Some [9 # 10; 8 # 10; 6 # 10]%Q
  /\ (fun st => map fst (OutputGenerator.final_sections st))
       <$> OutputGenerator.select_sections two_documents four_sections
     = Some [9 # 10; 8 # 10; 6 # 10; 7 # 10]%Q
  /\ (fun out => map (fun e => (OutputGenerator.es_section_title e,
                                OutputGenerator.importance_rank e))
                     (OutputGenerator.extracted_sections out))
       <$> OutputGenerator.generate_combined_output two_documents
             (py "Student") (py "Learn basics") four_sections (py "2025-01-01T00:00:00")
     = Some [(py "Alpha One", 1); (py "Alpha Two", 2); (py "Beta One", 3);
             (py "Alpha Three", 4)].
Proof.
  split; [|repeat split; vm_compute; reflexivity].
  intros documents ranked st. unfold OutputGenerator.select_sections.
  destruct (OutputGenerator.first_pass _ _ _) as [st1|]; [|discriminate]. simpl.
  destruct (_ && _).
  - intros H. apply relaxed_pass_appends in H. destruct H as [relaxed H].
    now exists st1, relaxed.
  - intros [= <-]. exists st1, []. now rewrite app_nil_r.
Qed.

Lemma relaxation_picks_ranked_last_witness :
  exists st1 relaxed,
    OutputGenerator.first_pass 2 four_sections OutputGenerator.empty_selection = Some st1
    /\ OutputGenerator.final_sections
         (default OutputGenerator.empty_selection
            (OutputGenerator.select_sections two_documents four_sections))
       = OutputGenerator.final_sections st1 ++ relaxed.
Proof.
  apply (proj1 relaxation_picks_ranked_last two_documents four_sections).
  vm_compute. reflexivity.
Defined.

(** ** The section assembler *)

Section SectionAssembler.
Import PdfParser.

Lemma fold_left_invariant {A B} (P : A -> Prop) (f : A -> B -> A) (l : list B) (a : A) :
  P a -> (forall a x, P a -> P (f a x)) -> P (fold_left f l a).
Proof.
  intros Ha Hf. revert a Ha. induction l as [|x l IH]; intros a Ha; simpl; auto.
Qed.

Lemma dict_add_nonempty {K} `{EqDecision K} (k : K) n (d : list (K * nat)) :
  dict_add k n d <> [].
Proof.
  destruct d as [|[k' v] d]; simpl; [discriminate|].
  destruct (decide (k = k')); discriminate.
Qed.

(** Within a line: no font seen means no text read, and fonts seen
    before the line stay. *)
Lemma scan_span_fold ln font_stats :
  let '(line_text, _, font_stats') := fold_left scan_span ln ([], [], font_stats) in
  font_stats' = [] -> line_text = [] /\ font_stats = [].
Proof.
  apply (fold_left_invariant
           (fun st => let '(line_text, _, fs') := st in
                      fs' = [] -> line_text = [] /\ font_stats = [])).
  - auto.
  - intros [[lt ls] fs] sp IH. unfold scan_span.
    destruct (truthy _); [|exact IH].
    intros E. now apply dict_add_nonempty in E.
Qed.

Lemma scan_line_collected page_num st ln :
  collected st -> collected (scan_line page_num st ln).
Proof.
  destruct st as [spans_data fs]. intros [Ht He]. unfold scan_line. simpl in *.
  pose proof (scan_span_fold ln fs) as Hf.
  destruct (fold_left scan_span ln ([], [], fs)) as [[lt ls] fs'].
  destruct (truthy (strip lt)) eqn:Hs; split; simpl.
  - apply Forall_app. split; [exact Ht|].
    constructor; [|constructor]. simpl. now apply strip_truthy_nonspace.
  - intros E. destruct (Hf E) as [-> _]. discriminate.
  - exact Ht.
  - intros E. apply He. now destruct (Hf E).
Qed.

Lemma scan_block_collected page_num st b :
  collected st -> collected (scan_block page_num st b).
Proof.
  intros H. unfold scan_block. destruct (block_lines b) as [lines|]; [|exact H].
  apply fold_left_invariant; [exact H|].
  intros a x. apply scan_line_collected.
Qed.

Lemma scan_pages_collected page_num pages st :
  collected st -> collected (scan_pages page_num pages st).
Proof.
  revert page_num st. induction pages as [|p pages IH]; intros page_num st H; simpl.
  - exact H.
  - apply IH. apply fold_left_invariant; [exact H|].
    intros a x. apply scan_block_collected.
Qed.

Lemma collect_collected doc : collected (collect doc).
Proof.
  apply scan_pages_collected. split; [constructor|reflexivity].
Qed.

Lemma has_text_truthy s : has_text s -> truthy s = true.
Proof. now destruct 1. Qed.

Lemma join_has_text (l : list str) :
  l <> [] -> Forall has_text l -> has_text (join (py " ") l).
Proof.
  destruct l as [|x l]; [congruence|]. intros _ H.
  apply Forall_cons in H. destruct H as [Hx _].
  simpl. destruct l; [exact Hx|]. apply Exists_app. now left.
Qed.

Section WithClassifier.
Variable summarize : str -> option str.
Variable heading : span_data -> bool.

Lemma save_section_length st secs :
  Forall has_text (current_context st) ->
  save_section summarize st = Some secs ->
  length secs
  = length (sections st)
    + (if heading_truthy (current_heading st) && truthy (current_context st)
       then 1 else 0).
Proof.
  intros Hctx. unfold save_section.
  destruct (heading_truthy _ && truthy _) eqn:Hopen.
  - apply andb_prop in Hopen. destruct Hopen as [_ Hne].
    assert (Ht : truthy (strip (join (py " ") (current_context st))) = true).
    { apply strip_nonspace. apply join_has_text; [|exact Hctx].
      now destruct (current_context st). }
    rewrite Ht.
    destruct (if 40 <? _ then _ else _) as [summarized|]; [|discriminate].
    simpl. intros [= <-]. rewrite length_app. reflexivity.
  - intros [= <-]. lia.
Qed.

Lemma assemble_fold_None l :
  fold_left (assemble_step summarize heading) l None = None.
Proof. induction l; simpl; auto. Qed.

Lemma assemble_fold_count l st secs :
  Forall (fun sd => has_text (sd_text sd)) l ->
  Forall has_text (current_context st) ->
  fold_left (assemble_step summarize heading) l (Some st)
    ≫= save_section summarize = Some secs ->
  length secs
  = length (sections st) + pending heading st l + headings_with_body heading l.
Proof.
  revert st. induction l as [|sd l IH]; intros st Hl Hctx.
  - simpl. intros H. rewrite (save_section_length st secs Hctx H).
    unfold pending. destruct (heading_truthy _), (truthy _); simpl; lia.
  - apply Forall_cons in Hl. destruct Hl as [Hsd Hl].
    cbn [fold_left]. unfold assemble_step at 2. cbn [mbind option_bind].
    destruct (heading sd) eqn:Hh.
    + destruct (save_section summarize st) as [secs'|] eqn:Hsave.
      2:{ simpl. rewrite assemble_fold_None. discriminate. }
      cbn [mbind option_bind]. intros H.
      apply IH in H; [|exact Hl|constructor].
      rewrite H. cbn [sections].
      rewrite (save_section_length st secs' Hctx Hsave).
      unfold pending at 1. cbn [current_heading current_context heading_truthy truthy].
      rewrite (has_text_truthy _ Hsd).
      unfold pending. cbn [headings_with_body]. rewrite Hh.
      destruct (heading_truthy (current_heading st)),
               (truthy (current_context st)), l as [|next l'];
        simpl; try destruct (heading next); simpl; lia.
    + destruct (heading_truthy (current_heading st)) eqn:Hopen.
      * intros H. apply IH in H; [|exact Hl|].
        2:{ cbn [current_context]. apply Forall_app.
            split; [exact Hctx|]. now constructor. }
        rewrite H. cbn [sections]. unfold pending.
        cbn [current_heading current_context headings_with_body].
        rewrite Hopen, Hh.
        replace (truthy (current_context st ++ [sd_text sd])) with true
          by now destruct (current_context st).
        destruct (truthy (current_context st)); simpl; lia.
      * intros H. apply IH in H; [|exact Hl|exact Hctx].
        rewrite H. unfold pending. cbn [headings_with_body].
        rewrite Hopen, Hh. simpl. lia.
Qed.

Lemma assemble_count l secs :
  Forall (fun sd => has_text (sd_text sd)) l ->
  assemble summarize heading l = Some secs ->
  length secs = headings_with_body heading l.
Proof.
  intros Hl H. unfold assemble in H.
  apply assemble_fold_count in H; [|exact Hl|constructor].
  exact H.
Qed.
(** The assembler raises only when the summarizer does. *)
Lemma save_section_total st :
  (forall t, is_Some (summarize t)) -> is_Some (save_section summarize st).
Proof.
  intros Hs. unfold save_section.
  destruct (_ && _); [|eexists; reflexivity].
  destruct (truthy _); [|eexists; reflexivity].
  destruct (40 <? _).
  - destruct (Hs (strip (join (py " ") (current_context st)))) as [x ->].
    eexists. reflexivity.
  - eexists. reflexivity.
Qed.

Lemma assemble_total l :
  (forall t, is_Some (summarize t)) -> is_Some (assemble summarize heading l).
Proof.
  intros Hs. unfold assemble.
  assert (H : is_Some (fold_left (assemble_step summarize heading) l (Some initial))).
  { generalize initial. induction l as [|sd l IH]; intros st; simpl.
    - now exists st.
    - destruct (heading sd).
      + destruct (save_section_total st Hs) as [secs ->]. simpl. apply IH.
      + destruct (heading_truthy _); apply IH. }
  destruct H as [st ->]. simpl. now apply save_section_total.
Qed.
End WithClassifier.

Lemma long_enough_words s :
  long_enough s = true -> exists body, context s = Some body /\ 5 <= length (split body).
Proof.
  unfold long_enough. destruct (context s) as [body|]; simpl.
  - intros H. exists body. split; [reflexivity|]. now apply Nat.leb_le.
  - discriminate.
Qed.
(** Segmentation returns a list whenever the summarizer does not raise. *)
Lemma extract_headings_with_context_total
    (summarize : str -> option str) (doc : pdf_document) :
  (forall t, is_Some (summarize t)) ->
  is_Some (extract_headings_with_context summarize doc).
Proof.
  intros Hs. unfold extract_headings_with_context.
  destruct (collect doc) as [spans_data font_stats].
  destruct (dict_max_key font_stats) as [[body_size body_is_bold]|];
    [|eexists; reflexivity].
  destruct (assemble_total summarize (is_heading body_size body_is_bold)
              spans_data Hs) as [secs ->].
  eexists. reflexivity.
Qed.
End SectionAssembler.

(** C9. Every section the segmentation returns has a body of at least 5
    whitespace-separated words. *)
Theorem returned_sections_have_five_words
    (summarize : str -> option str) (doc : PdfParser.pdf_document)
    (secs : list section) :
  PdfParser.extract_headings_with_context summarize doc = Some secs ->
  Forall (fun s => exists body, context s = Some body /\ 5 <= length (split body)) secs.
Proof.
  unfold PdfParser.extract_headings_with_context.
  destruct (PdfParser.collect doc) as [spans_data font_stats].
  destruct (PdfParser.dict_max_key font_stats) as [[body_size body_is_bold]|].
  - destruct (PdfParser.assemble _ _ _) as [built|]; [|discriminate].
    simpl. intros [= <-]. apply Forall_forall. intros s Hin.
    apply list_elem_of_In, filter_In in Hin. destruct Hin as [_ Hlong].
    now apply long_enough_words.
  - intros [= <-]. constructor.
Qed.

Lemma returned_sections_have_five_words_witness :
  Forall (fun s => exists body, context s = Some body /\ 5 <= length (split body))
    (default [] (sample_extract short_body_document)).
Proof.
  apply (returned_sections_have_five_words
           (fun text => Summarizer.summarize_text sample_sent_tokenize
                          sample_fit_transform sample_argsort text 3)
           short_body_document).
  vm_compute. reflexivity.
Defined.

Lemma dict_max_key_None {K} `{EqDecision K} (d : list (K * nat)) :
  PdfParser.dict_max_key d = None -> d = [].
Proof. now destruct d. Qed.

(** C3, as the code has it. The assembler builds exactly one section for
    each heading-accepted line that is followed by at least one non-heading
    line before the next heading-accepted line or the end of the stream;
    of these the function returns the ones whose body has at least 5
    whitespace-separated words. *)
Theorem assembler_section_count
    (summarize : str -> option str) (doc : PdfParser.pdf_document)
    (secs : list section) :
  PdfParser.extract_headings_with_context summarize doc = Some secs ->
  exists built,
    PdfParser.assemble summarize (classifier doc) (fst (PdfParser.collect doc))
    = Some built
    /\ length built
       = headings_with_body (classifier doc) (fst (PdfParser.collect doc))
    /\ secs = List.filter PdfParser.long_enough built.
Proof.
  unfold PdfParser.extract_headings_with_context, classifier, PdfParser.body_font.
  pose proof (collect_collected doc) as [Htext Hempty].
  destruct (PdfParser.collect doc) as [spans_data font_stats]. simpl in *.
  destruct (PdfParser.dict_max_key font_stats) as [[body_size body_is_bold]|] eqn:Hmax.
  - destruct (PdfParser.assemble _ _ _) as [built|] eqn:Hb; [|discriminate].
    simpl. intros [= <-]. exists built. split; [reflexivity|]. split; [|reflexivity].
    now apply (assemble_count summarize _ spans_data).
  - intros [= <-]. apply dict_max_key_None in Hmax.
    rewrite (Hempty Hmax). exists []. now repeat split.
Qed.

Lemma assembler_section_count_witness :
  exists built,
    PdfParser.assemble
      (fun text => Summarizer.summarize_text sample_sent_tokenize
                     sample_fit_transform sample_argsort text 3)
      (classifier short_body_document)
      (fst (PdfParser.collect short_body_document)) = Some built
    /\ length built = 2
    /\ default [] (sample_extract short_body_document)
       = List.filter PdfParser.long_enough built.
Proof.
  apply (assembler_section_count _ short_body_document).
  vm_compute. reflexivity.
Defined.

(** C3, as stated, fails: in [short_body_document] two heading-accepted
    lines are followed by a non-heading line, and one section is returned,
    the other having a body of two words. *)
Lemma short_body_section_not_emitted :
  ~ (forall (summarize : str -> option str) (doc : PdfParser.pdf_document)
            (secs : list section),
       PdfParser.extract_headings_with_context summarize doc = Some secs ->
       length secs
       = headings_with_body (classifier doc) (fst (PdfParser.collect doc))).
Proof.
  intros H.
  specialize (H (fun text => Summarizer.summarize_text sample_sent_tokenize
                               sample_fit_transform sample_argsort text 3)
                short_body_document
                (default [] (sample_extract short_body_document))).
  assert (E : PdfParser.extract_headings_with_context
                (fun text => Summarizer.summarize_text sample_sent_tokenize
                               sample_fit_transform sample_argsort text 3)
                short_body_document
              = Some (default [] (sample_extract short_body_document)))
    by (vm_compute; reflexivity).
  specialize (H E). vm_compute in H. discriminate.
Qed.

(** ** The font profile and the body font *)

Section FontProfile.
Import PdfParser.

Section Dict.
Context {K : Type} `{EqDecision K}.

Lemma dict_get_add (k k' : K) n (d : list (K * nat)) :
  dict_get k (dict_add k' n d)
  = dict_get k d + (if decide (k = k') then n else 0).
Proof.
  induction d as [|[k0 v] d IH]; simpl.
  - destruct (decide (k = k')); lia.
  - destruct (decide (k' = k0)) as [->|Hne]; simpl.
    + destruct (decide (k = k0)); lia.
    + destruct (decide (k = k0)) as [->|Hne'].
      * destruct (decide (k0 = k')); [congruence|lia].
      * exact IH.
Qed.

Lemma dict_get_absent (k : K) (d : list (K * nat)) :
  k ∉ map fst d -> dict_get k d = 0.
Proof.
  induction d as [|[k0 v] d IH]; simpl; [reflexivity|].
  rewrite elem_of_cons. intros Hn.
  destruct (decide (k = k0)); [tauto|apply IH; tauto].
Qed.

(** The key [max] ends on is one of the keys, and no key has a greater
    value. *)
Lemma max_by_fold (key : K -> nat) (keys : list K) (k : K) :
  let best := fold_left (fun best x => if key best <? key x then x else best) keys k in
  best ∈ k :: keys /\ forall k', k' ∈ k :: keys -> key k' <= key best.
Proof.
  revert k. induction keys as [|x keys IH]; intros k; simpl.
  - split; [apply list_elem_of_singleton; reflexivity|].
    intros k' Hin. apply list_elem_of_singleton in Hin. now subst.
  - destruct (IH (if key k <? key x then x else k)) as [Hin Hmax]. split.
    + apply elem_of_cons in Hin. destruct Hin as [E|Hin].
      * rewrite E. destruct (key k <? key x).
        -- apply elem_of_cons. right. apply elem_of_cons. now left.
        -- apply elem_of_cons. now left.
      * apply elem_of_cons. right. apply elem_of_cons. now right.
    + intros k' Hin'.
      pose proof (Hmax _ ltac:(apply elem_of_cons; now left)) as H0.
      assert (Hstep : key k <= key (if key k <? key x then x else k)
                      /\ key x <= key (if key k <? key x then x else k)).
      { destruct (key k <? key x) eqn:E.
        - apply Nat.ltb_lt in E. lia.
        - apply Nat.ltb_ge in E. lia. }
      apply elem_of_cons in Hin'. destruct Hin' as [->|Hin']; [lia|].
      apply elem_of_cons in Hin'. destruct Hin' as [->|Hin']; [lia|].
      apply Hmax. apply elem_of_cons. now right.
Qed.

Lemma dict_max_key_greatest (d : list (K * nat)) (k : K) :
  dict_max_key d = Some k ->
  forall k', dict_get k' d <= dict_get k d.
Proof.
  unfold dict_max_key, max_by. intros Hmax k'.
  destruct (map fst d) as [|k0 keys] eqn:Hkeys; [discriminate|].
  injection Hmax as <-.
  destruct (max_by_fold (fun x => dict_get x d) keys k0) as [_ Hge].
  destruct (decide (k' ∈ map fst d)) as [Hk|Hk].
  - rewrite Hkeys in Hk. exact (Hge k' Hk).
  - rewrite (dict_get_absent k' d Hk). lia.
Qed.
End Dict.

(** [font_stats] depends on the spans of the document only, in order. *)
Lemma scan_span_stats ln line_text line_spans font_stats :
  snd (fold_left scan_span ln (line_text, line_spans, font_stats))
  = fold_left add_span ln font_stats.
Proof.
  revert line_text line_spans font_stats.
  induction ln as [|sp ln IH]; intros lt ls fs; simpl; [reflexivity|].
  unfold add_span at 2. unfold span_key.
  destruct (truthy (strip (span_text sp))); apply IH.
Qed.

Lemma scan_line_stats page_num st ln :
  snd (scan_line page_num st ln) = fold_left add_span ln (snd st).
Proof.
  destruct st as [spans_data fs].
  transitivity (snd (fold_left scan_span ln ([], [], fs)));
    [|apply scan_span_stats].
  unfold scan_line.
  destruct (fold_left scan_span ln _) as [[lt ls] fs'].
  simpl. now destruct (truthy (strip lt)).
Qed.

Lemma scan_lines_stats page_num lines st :
  snd (fold_left (scan_line page_num) lines st) = add_lines (snd st) lines.
Proof.
  revert st. induction lines as [|ln lines IH]; intros st; simpl; [reflexivity|].
  rewrite IH, scan_line_stats. reflexivity.
Qed.

Lemma add_lines_app fs l1 l2 : add_lines fs (l1 ++ l2) = add_lines (add_lines fs l1) l2.
Proof. unfold add_lines. apply fold_left_app. Qed.

Lemma scan_blocks_stats page_num blocks st :
  snd (fold_left (scan_block page_num) blocks st)
  = add_lines (snd st) (flat_map (fun b => default [] (block_lines b)) blocks).
Proof.
  revert st. induction blocks as [|b blocks IH]; intros st; simpl; [reflexivity|].
  rewrite IH, add_lines_app. f_equal.
  unfold scan_block. destruct (block_lines b) as [lines|]; simpl.
  - apply scan_lines_stats.
  - reflexivity.
Qed.

Lemma scan_pages_stats page_num pages st :
  snd (scan_pages page_num pages st) = add_lines (snd st) (doc_lines pages).
Proof.
  revert page_num st. induction pages as [|p pages IH]; intros page_num st; simpl.
  - reflexivity.
  - rewrite IH, add_lines_app, scan_blocks_stats. reflexivity.
Qed.

Lemma collect_stats doc : snd (collect doc) = add_lines [] (doc_lines doc).
Proof. apply scan_pages_stats. Qed.
End FontProfile.

Section BodyFont.
Import PdfParser.

Lemma add_span_get k fs sp :
  dict_get k (add_span fs sp) = dict_get k fs + span_words k sp.
Proof.
  unfold add_span, span_words.
  destruct (truthy (strip (span_text sp))); simpl; [|lia].
  rewrite dict_get_add.
  destruct (decide (k = span_key sp)) as [->|Hne].
  - now rewrite bool_decide_eq_true_2.
  - now rewrite bool_decide_eq_false_2 by congruence.
Qed.

Lemma add_line_get k ln fs :
  dict_get k (fold_left add_span ln fs) = dict_get k fs + line_words k ln.
Proof.
  revert fs. induction ln as [|sp ln IH]; intros fs; simpl; [lia|].
  rewrite IH, add_span_get. lia.
Qed.

Lemma add_lines_get k lines fs :
  dict_get k (add_lines fs lines) = dict_get k fs + aggregate_words k lines.
Proof.
  revert fs. induction lines as [|ln lines IH]; intros fs; simpl; [lia|].
  unfold add_lines in *. simpl. rewrite IH, add_line_get. lia.
Qed.

(** The aggregate word count of a font does not depend on the order of
    the lines. *)
Lemma aggregate_words_perm k l1 l2 :
  Permutation l1 l2 -> aggregate_words k l1 = aggregate_words k l2.
Proof.
  induction 1; simpl; lia.
Qed.

Lemma body_font_greatest doc k :
  body_font doc = Some k ->
  forall k', aggregate_words k' (doc_lines doc) <= aggregate_words k (doc_lines doc).
Proof.
  unfold body_font. rewrite collect_stats. intros H k'.
  pose proof (dict_max_key_greatest _ k H k') as Hle.
  rewrite !add_lines_get in Hle. simpl in Hle. exact Hle.
Qed.

(** A font with strictly more words than any other is the body font. *)
Lemma body_font_unique_max doc k :
  (forall k', k' <> k ->
     aggregate_words k' (doc_lines doc) < aggregate_words k (doc_lines doc)) ->
  body_font doc = Some k.
Proof.
  intros Hmax.
  destruct (body_font doc) as [km|] eqn:Hb.
  - destruct (decide (km = k)) as [->|Hne]; [reflexivity|].
    pose proof (body_font_greatest doc km Hb k).
    pose proof (Hmax km Hne). lia.
  - exfalso. unfold body_font in Hb. rewrite collect_stats in Hb.
    apply dict_max_key_None in Hb.
    pose proof (add_lines_get k (doc_lines doc) []) as Hk.
    rewrite Hb in Hk. simpl in Hk.
    pose proof (Hmax (fst k, negb (snd k))) as Hlt.
    assert (Hne : (fst k, negb (snd k)) <> k).
    { destruct k as [sz b]. simpl. intros [= E]. now destruct b. }
    specialize (Hlt Hne). lia.
Qed.
End BodyFont.

(** C4, as the code has it. When one (fontSize, isBold) pair has strictly
    the highest aggregate word count, it is the body font in whatever order
    the lines of the document are processed. *)
Theorem body_font_order_independent
    (doc doc' : PdfParser.pdf_document) (k : PdfParser.font_key) :
  Permutation (doc_lines doc) (doc_lines doc') ->
  (forall k', k' <> k ->
     aggregate_words k' (doc_lines doc) < aggregate_words k (doc_lines doc)) ->
  PdfParser.body_font doc = Some k /\ PdfParser.body_font doc' = Some k.
Proof.
  intros Hperm Hmax. split.
  - now apply body_font_unique_max.
  - apply body_font_unique_max. intros k' Hne.
    rewrite <- !(aggregate_words_perm _ _ _ Hperm). now apply Hmax.
Qed.

(** C4, as stated, fails: with two fonts of one word each, the font seen
    first is the body font, and reordering the lines changes it. *)
Lemma body_font_depends_on_order_of_ties :
  ~ (forall doc doc' : PdfParser.pdf_document,
       Permutation (doc_lines doc) (doc_lines doc') ->
       PdfParser.body_font doc = PdfParser.body_font doc').
Proof.
  intros H. specialize (H tie_document tie_document_reordered).
  assert (Hp : Permutation (doc_lines tie_document) (doc_lines tie_document_reordered))
    by apply perm_swap.
  specialize (H Hp).
  apply (f_equal (option_map (fun k : PdfParser.font_key => this (fst k)))) in H.
  vm_compute in H. discriminate.
Qed.

Lemma majority_document_strict_max (k' : PdfParser.font_key) :
  k' <> (Q2Qc 10, false) ->
  aggregate_words k' (doc_lines majority_document)
  < aggregate_words (Q2Qc 10, false) (doc_lines majority_document).
Proof.
  intros Hne.
  replace (aggregate_words (Q2Qc 10, false) (doc_lines majority_document)) with 2
    by (vm_compute; reflexivity).
  destruct (decide (k' = (Q2Qc 12, false))) as [->|Hne'].
  - vm_compute. lia.
  - unfold aggregate_words, doc_lines, majority_document, line_words, span_words.
    cbn [flat_map PdfParser.block_lines default from_option id app fold_right].
    rewrite !bool_decide_eq_false_2.
    + rewrite !andb_false_r. simpl. lia.
    + intros E. apply Hne'. rewrite <- E. reflexivity.
    + intros E. apply Hne. rewrite <- E. reflexivity.
Qed.

Lemma body_font_order_independent_witness :
  PdfParser.body_font majority_document = Some (Q2Qc 10, false)
  /\ PdfParser.body_font majority_document_reordered = Some (Q2Qc 10, false).
Proof.
  apply (body_font_order_independent majority_document majority_document_reordered).
  - apply perm_swap.
  - exact majority_document_strict_max.
Defined.

(** ** The extractive summarizer *)

Section SummarizerFacts.

Lemma ascending_Sorted importance order :
  ascending importance order = true -> Sorted (no_heavier importance) order.
Proof.
  induction order as [|i [|j rest] IH]; intros H.
  - constructor.
  - repeat constructor.
  - simpl in H. apply andb_prop in H. destruct H as [Hij Hrest].
    constructor; [now apply IH|].
    constructor. now apply Qle_bool_iff.
Qed.

Lemma no_heavier_transitive importance : Transitive (no_heavier importance).
Proof. intros i j k. unfold no_heavier. apply Qle_trans. Qed.

(** The last [k] indices of an ascending order weigh at least as much as
    all the others. *)
Lemma top_of_ascending importance order k i j :
  ascending importance order = true ->
  i ∈ take k (rev order) -> j ∈ drop k (rev order) ->
  no_heavier importance j i.
Proof.
  intros Hasc Hi Hj.
  apply ascending_Sorted in Hasc.
  apply (@Sorted_StronglySorted _ _ (no_heavier_transitive importance)) in Hasc.
  assert (E : order = rev (drop k (rev order)) ++ rev (take k (rev order))).
  { rewrite <- rev_app_distr, firstn_skipn. now rewrite rev_involutive. }
  rewrite E in Hasc.
  apply (StronglySorted_app_1_elem_of _ _ _ j i) in Hasc; [exact Hasc| |].
  - apply list_elem_of_In. rewrite <- in_rev. now apply list_elem_of_In.
  - apply list_elem_of_In. rewrite <- in_rev. now apply list_elem_of_In.
Qed.

Lemma StronglySorted_le_lt (l : list nat) :
  StronglySorted le l -> NoDup l -> StronglySorted lt l.
Proof.
  induction 1 as [|x l Hs IH Hx]; intros Hnd; constructor.
  - apply IH. now apply NoDup_cons in Hnd.
  - apply NoDup_cons in Hnd. destruct Hnd as [Hnin _].
    rewrite Forall_forall in *. intros y Hy.
    specialize (Hx y Hy). assert (x <> y) by (intros ->; contradiction). lia.
Qed.

Lemma mapM_lookup_all (sentences : list str) (picked : list nat) :
  (forall i, i ∈ picked -> i < length sentences) ->
  mapM (fun i => sentences !! i) picked
  = Some (map (fun i => nth i sentences []) picked).
Proof.
  intros H. apply mapM_Some_2.
  induction picked as [|i picked IH]; simpl; constructor.
  - rewrite nth_lookup.
    destruct (lookup_lt_is_Some_2 sentences i) as [x ->]; [|reflexivity].
    apply H. now left.
  - apply IH. intros j Hj. apply H. now right.
Qed.

End SummarizerFacts.

(** The summary of [four_sentences] in two sentences: the two heaviest, in
    the order of the text (the fourth sentence is lighter than the second). *)
Example summarize_four_sentences :
  Summarizer.summarize_text sample_sent_tokenize sample_fit_transform
    sample_argsort four_sentences 2
  = Some (py "Summarisation condenses paragraphs. Extraction preserves ordering.").
Proof. vm_compute. reflexivity. Qed.

(** ** The relevance scorer *)

Lemma keyword_term_of_total_score
    (semantic_score tfidf_score position_bonus : Q) (query enhanced_text : str)
    (s : section) :
  (RelevanceModel.total_score semantic_score tfidf_score query enhanced_text
     position_bonus s
   - other_components semantic_score tfidf_score position_bonus s
   == (2 # 100) * overlap_ratio query enhanced_text)%Q.
Proof.
  unfold RelevanceModel.total_score, other_components,
    RelevanceModel.keyword_component, RelevanceModel.keyword_bonus,
    RelevanceModel.keyword_overlap, RelevanceModel.Qdiv_nat, overlap_ratio.
  cbv zeta. ring.
Qed.

(** C2, as the code has it. The keyword-overlap term of the composite
    score of a section is 0.02 (0.1 times the bonus, which is 0.2 times the
    overlap) times [|queryWords ∩ sectionWords| / max(|queryWords|, 1)]. *)
Theorem keyword_overlap_component
    (semantic_score tfidf_score position_bonus : Q) (query : str) (s : section) :
  (RelevanceModel.total_score semantic_score tfidf_score query
     (RelevanceModel.enhanced_text_of s) position_bonus s
   - other_components semantic_score tfidf_score position_bonus s
   == (2 # 100) * overlap_ratio query (RelevanceModel.enhanced_text_of s))%Q.
Proof. apply keyword_term_of_total_score. Qed.

(** C2, as stated, fails: for the query "alpha" and a section headed
    "Alpha One" the overlap is 1 and the keyword term is 0.02, not 0.10. *)
Lemma keyword_overlap_component_is_not_a_tenth :
  ~ (forall (semantic_score tfidf_score position_bonus : Q) (query : str) (s : section),
       (RelevanceModel.total_score semantic_score tfidf_score query
          (RelevanceModel.enhanced_text_of s) position_bonus s
        - other_components semantic_score tfidf_score position_bonus s
        == (1 # 10) * overlap_ratio query (RelevanceModel.enhanced_text_of s))%Q).
Proof.
  intros H.
  specialize (H 0%Q 0%Q 0%Q (py "alpha")
                (sample_section "a.pdf" "Alpha One" "one two three four five six" 1)).
  vm_compute in H. discriminate.
Qed.

(** ** The pipeline *)

(** C7. When no valid section has been gathered, [main] still writes an
    output: the two section lists are empty and the metadata carries the
    documents that were processed, the persona, the job and the timestamp. *)
Theorem empty_run_writes_empty_output
    (sent_tokenize : str -> list str)
    (fit_transform : list str -> option (list (list Q)))
    (argsort : list Q -> list nat)
    (tfidf_similarity : str -> list str -> option (list Q))
    (model : option (str -> list str -> option (list Q)))
    (listing : list (str * option PdfParser.pdf_document))
    (persona job now : str) :
  fst (gathered sent_tokenize fit_transform argsort listing) = [] ->
  Main.main sent_tokenize fit_transform argsort tfidf_similarity model
    listing persona job now
  = Some {| OutputGenerator.out_metadata :=
              {| OutputGenerator.input_documents :=
                   snd (gathered sent_tokenize fit_transform argsort listing);
                 OutputGenerator.persona := persona;
                 OutputGenerator.job_to_be_done := job;
                 OutputGenerator.processing_timestamp := now ++ py "Z" |};
            OutputGenerator.extracted_sections := [];
            OutputGenerator.subsection_analysis := [] |}.
Proof.
  unfold Main.main, gathered.
  destruct (fold_left _ listing _) as [all_sections document_list].
  simpl. intros ->. reflexivity.
Qed.

Lemma empty_run_writes_empty_output_witness :
  Main.main sample_sent_tokenize sample_fit_transform sample_argsort
    sample_tfidf_similarity None barren_listing
    (py "Student") (py "Learn basics") (py "2025-01-01T00:00:00")
  = Some {| OutputGenerator.out_metadata :=
              {| OutputGenerator.input_documents := [py "short.pdf"];
                 OutputGenerator.persona := py "Student";
                 OutputGenerator.job_to_be_done := py "Learn basics";
                 OutputGenerator.processing_timestamp := py "2025-01-01T00:00:00Z" |};
            OutputGenerator.extracted_sections := [];
            OutputGenerator.subsection_analysis := [] |}.
Proof.
  apply (empty_run_writes_empty_output sample_sent_tokenize sample_fit_transform
           sample_argsort sample_tfidf_similarity None barren_listing).
  vm_compute. reflexivity.
Defined.

(** * Further properties of the code *)

(** ** The selection and the output *)

Section SelectionFacts.
Import OutputGenerator.

Lemma keyed_empty : keyed empty_selection.
Proof.
  split; simpl; [constructor|]. intros r Hr. now apply elem_of_nil in Hr.
Qed.

Lemma keyed_accept st counts score s doc :
  keyed st ->
  document s = Some doc ->
  section_key_of doc s ∉ seen_sections st ->
  keyed {| doc_counts := counts;
           seen_sections := seen_sections st ∪ {[section_key_of doc s]};
           final_sections := final_sections st ++ [(score, s)] |}.
Proof.
  intros [Hnd Hseen] Hdoc Hnew.
  assert (Hk : pick_key (score, s) = section_key_of doc s).
  { unfold pick_key. simpl. now rewrite Hdoc. }
  split; cbn [final_sections seen_sections].
  - rewrite map_app. simpl. apply NoDup_app. split; [exact Hnd|]. split.
    + intros k Hin Hk'. apply list_elem_of_singleton in Hk'. subst k.
      apply list_elem_of_fmap in Hin. destruct Hin as [r [E Hr]].
      apply Hnew. rewrite <- Hk, E. now apply Hseen.
    + apply NoDup_singleton.
  - intros r Hr. apply elem_of_app in Hr. destruct Hr as [Hr|Hr].
    + apply elem_of_union. left. now apply Hseen.
    + apply list_elem_of_singleton in Hr. subst r. rewrite Hk.
      apply elem_of_union. right. now apply elem_of_singleton.
Qed.

Lemma first_pass_keyed quota ranked st st' :
  keyed st -> first_pass quota ranked st = Some st' -> keyed st'.
Proof.
  revert st. induction ranked as [|[score s] ranked IH]; intros st Hk; simpl.
  - now intros [= <-].
  - destruct (document s) as [doc|] eqn:Hdoc; [|discriminate]. simpl.
    destruct (bool_decide _) eqn:Hseen; [now apply IH|].
    apply bool_decide_eq_false in Hseen.
    destruct (quota <=? _); [now apply IH|].
    destruct (negb _); [now apply IH|].
    pose proof (keyed_accept st
                  (<[doc := default 0 (doc_counts st !! doc) + 1]> (doc_counts st))
                  score s doc Hk Hdoc Hseen) as Hk'.
    match goal with |- (if ?b then _ else _) = _ -> _ => destruct b end.
    + now intros [= <-].
    + now apply IH.
Qed.

Lemma relaxed_pass_keyed slots ranked st st' :
  keyed st -> relaxed_pass slots ranked st = Some st' -> keyed st'.
Proof.
  revert slots st. induction ranked as [|[score s] ranked IH]; intros slots st Hk; simpl.
  - now intros [= <-].
  - destruct (slots <=? 0); [now intros [= <-]|].
    destruct (document s) as [doc|] eqn:Hdoc; [|discriminate]. simpl.
    destruct (bool_decide _) eqn:Hseen; [now apply IH|].
    apply bool_decide_eq_false in Hseen.
    destruct (title_ok _); [|now apply IH].
    apply IH. now apply keyed_accept.
Qed.

(** What a pass adds: a subsequence of the ranked list, made of eligible
    sections. *)
Lemma first_pass_picks quota ranked st st' :
  first_pass quota ranked st = Some st' ->
  exists picks,
    final_sections st' = final_sections st ++ picks
    /\ picks `sublist_of` ranked /\ Forall eligible picks.
Proof.
  revert st. induction ranked as [|[score s] ranked IH]; intros st; simpl.
  - intros [= <-]. exists []. rewrite app_nil_r. repeat split; constructor.
  - assert (Hskip : first_pass quota ranked st = Some st' ->
                    exists picks,
                      final_sections st' = final_sections st ++ picks
                      /\ picks `sublist_of` (score, s) :: ranked
                      /\ Forall eligible picks).
    { intros H. destruct (IH st H) as [picks [E [Hsub Hel]]].
      exists picks. repeat split; [exact E| |exact Hel]. now apply sublist_cons. }
    destruct (document s) as [doc|] eqn:Hdoc; [|discriminate]. simpl.
    destruct (bool_decide _); [exact Hskip|].
    destruct (quota <=? _); [exact Hskip|].
    destruct (title_ok (stripped_title s)) eqn:Hok; [|exact Hskip]. simpl.
    assert (Hel : eligible (score, s)).
    { split; [exact Hok|]. simpl. rewrite Hdoc. now eexists. }
    match goal with |- (if ?b then _ else _) = _ -> _ => destruct b end.
    + intros [= <-]. exists [(score, s)]. repeat split.
      * apply sublist_skip, sublist_nil_l.
      * now constructor.
    + intros H. destruct (IH _ H) as [picks [E [Hsub Hp]]]. simpl in E.
      exists ((score, s) :: picks). repeat split.
      * now rewrite E, <- app_assoc.
      * now apply sublist_skip.
      * now constructor.
Qed.

Lemma relaxed_pass_picks slots ranked st st' :
  relaxed_pass slots ranked st = Some st' ->
  exists picks,
    final_sections st' = final_sections st ++ picks
    /\ picks `sublist_of` ranked /\ Forall eligible picks
    /\ length picks <= slots.
Proof.
  revert slots st. induction ranked as [|[score s] ranked IH]; intros slots st; simpl.
  - intros [= <-]. exists []. rewrite app_nil_r.
    repeat split; try constructor. simpl. lia.
  - destruct (slots <=? 0) eqn:Hslots.
    { intros [= <-]. exists []. rewrite app_nil_r.
      repeat split; try constructor; [apply sublist_nil_l|simpl; lia]. }
    apply Nat.leb_gt in Hslots.
    assert (Hskip : relaxed_pass slots ranked st = Some st' ->
                    exists picks,
                      final_sections st' = final_sections st ++ picks
                      /\ picks `sublist_of` (score, s) :: ranked
                      /\ Forall eligible picks /\ length picks <= slots).
    { intros H. destruct (IH _ st H) as [picks [E [Hsub [Hel Hlen]]]].
      exists picks. repeat split; [exact E| |exact Hel|exact Hlen].
      now apply sublist_cons. }
    destruct (document s) as [doc|] eqn:Hdoc; [|discriminate]. simpl.
    destruct (bool_decide _); [exact Hskip|].
    destruct (title_ok (stripped_title s)) eqn:Hok; [|exact Hskip].
    intros H. destruct (IH _ _ H) as [picks [E [Hsub [Hp Hlen]]]]. simpl in E.
    exists ((score, s) :: picks). repeat split.
    + now rewrite E, <- app_assoc.
    + now apply sublist_skip.
    + constructor; [|exact Hp]. split; [exact Hok|]. simpl. rewrite Hdoc. now eexists.
    + simpl. lia.
Qed.

Lemma first_pass_length quota ranked st st' :
  length (final_sections st) < max_sections ->
  first_pass quota ranked st = Some st' ->
  length (final_sections st') <= max_sections.
Proof.
  revert st. induction ranked as [|[score s] ranked IH]; intros st Hlt;
    cbn [first_pass].
  - intros [= <-]. lia.
  - destruct (document s) as [doc|]; [|discriminate]. cbn [mbind option_bind].
    destruct (bool_decide _); [now apply IH|].
    destruct (quota <=? _); [now apply IH|].
    destruct (negb _); [now apply IH|].
    cbv zeta. cbn [final_sections].
    destruct (max_sections <=? _) eqn:Hfull.
    + intros [= <-]. cbn [final_sections]. rewrite length_app. simpl. lia.
    + apply Nat.leb_gt in Hfull. apply IH. exact Hfull.
Qed.

Lemma select_sections_length documents ranked st :
  select_sections documents ranked = Some st ->
  length (final_sections st) <= max_sections.
Proof.
  unfold select_sections.
  destruct (first_pass _ _ _) as [st1|] eqn:H1; [|discriminate]. simpl.
  apply first_pass_length in H1; [|simpl; unfold max_sections; lia].
  destruct (_ && _) eqn:Hrelax.
  - intros H2. apply relaxed_pass_picks in H2.
    destruct H2 as [picks [E [_ [_ Hlen]]]]. rewrite E, length_app.
    apply andb_prop in Hrelax. destruct Hrelax as [Hlt _].
    apply Nat.ltb_lt in Hlt. lia.
  - now intros [= <-].
Qed.

Lemma select_sections_keyed documents ranked st :
  select_sections documents ranked = Some st -> keyed st.
Proof.
  unfold select_sections.
  destruct (first_pass _ _ _) as [st1|] eqn:H1; [|discriminate]. simpl.
  apply first_pass_keyed in H1; [|exact keyed_empty].
  destruct (_ && _).
  - now apply relaxed_pass_keyed.
  - now intros [= <-].
Qed.

Lemma select_sections_picks documents ranked st :
  select_sections documents ranked = Some st ->
  Forall (fun r => r ∈ ranked /\ eligible r) (final_sections st).
Proof.
  unfold select_sections.
  destruct (first_pass _ _ _) as [st1|] eqn:H1; [|discriminate]. simpl.
  apply first_pass_picks in H1. destruct H1 as [p1 [E1 [Hs1 He1]]]. simpl in E1.
  assert (H1 : Forall (fun r => r ∈ ranked /\ eligible r) (final_sections st1)).
  { rewrite E1. apply Forall_forall. intros r Hr. split.
    - now apply (elem_of_sublist p1).
    - rewrite Forall_forall in He1. now apply He1. }
  destruct (_ && _).
  - intros H2. apply relaxed_pass_picks in H2.
    destruct H2 as [p2 [E2 [Hs2 [He2 _]]]]. rewrite E2.
    apply Forall_app. split; [exact H1|].
    apply Forall_forall. intros r Hr. split.
    + now apply (elem_of_sublist p2).
    + rewrite Forall_forall in He2. now apply He2.
  - now intros [= <-].
Qed.
End SelectionFacts.

Section OutputFacts.
Import OutputGenerator.

Lemma extracted_records (g : nat -> nat) (picks : list (Q * section))
    (records : list extracted_section) :
  mapM (fun '(i, r) => extracted_of (S i) r) (imap (fun i r => (g i, r)) picks)
  = Some records ->
  Forall2 record_of picks records
  /\ map importance_rank records = map (fun i => S (g i)) (seq 0 (length picks)).
Proof.
  revert g records. induction picks as [|r picks IH]; intros g records.
  - cbn. intros [= <-]. split; constructor.
  - rewrite imap_cons. cbn [mapM mbind option_bind].
    destruct (extracted_of (S (g 0)) r) as [e|] eqn:He; [|discriminate].
    cbn [mbind option_bind].
    destruct (mapM _ (imap _ picks)) as [rest|] eqn:Hrest; [|discriminate].
    cbn [mbind option_bind mret option_ret]. intros [= <-].
    destruct (IH (g ∘ S) rest Hrest) as [Hrec Hranks].
    unfold extracted_of in He.
    destruct (document (snd r)) as [doc|] eqn:Hdoc; [|discriminate].
    injection He as <-. split.
    + constructor; [|exact Hrec]. now repeat split.
    + simpl. f_equal. rewrite Hranks, <- seq_shift, map_map. reflexivity.
Qed.

Lemma generate_combined_output_inv documents persona job ranked now out :
  ranked <> [] ->
  generate_combined_output documents persona job ranked now = Some out ->
  exists st,
    select_sections documents ranked = Some st
    /\ Forall2 record_of (final_sections st) (extracted_sections out)
    /\ map importance_rank (extracted_sections out)
       = seq 1 (length (final_sections st))
    /\ length (subsection_analysis out) = length (final_sections st).
Proof.
  intros Hne. unfold generate_combined_output.
  destruct ranked as [|r0 ranked]; [congruence|]. cbn [truthy negb].
  destruct (select_sections _ _) as [st|]; [|discriminate]. cbn [mbind option_bind].
  destruct (mapM _ (imap _ _)) as [extracted|] eqn:Hex; [|discriminate].
  cbn [mbind option_bind].
  destruct (mapM subsection_of _) as [analysis|] eqn:Han; [|discriminate].
  cbn [mbind option_bind]. intros [= <-]. cbn [extracted_sections subsection_analysis].
  exists st. split; [reflexivity|].
  destruct (extracted_records (fun i => i) _ _ Hex) as [Hrec Hranks].
  repeat split; [exact Hrec| |].
  - rewrite Hranks, <- seq_shift. reflexivity.
  - symmetry. now apply length_mapM in Han.
Qed.
End OutputFacts.

(** X1. The output never lists more than five sections, and gives one
    analysis entry per listed section. *)
Theorem output_has_at_most_five_sections
    (documents : list str) (persona job : str)
    (ranked_sections : list (Q * section)) (now : str)
    (out : OutputGenerator.output) :
  OutputGenerator.generate_combined_output documents persona job ranked_sections now
  = Some out ->
  length (OutputGenerator.extracted_sections out) <= 5
  /\ length (OutputGenerator.subsection_analysis out)
     = length (OutputGenerator.extracted_sections out).
Proof.
  intros H. destruct ranked_sections as [|r0 ranked].
  - injection H as <-. simpl. split; [lia|reflexivity].
  - apply generate_combined_output_inv in H; [|discriminate].
    destruct H as [st [Hsel [Hrec [_ Hlen]]]].
    apply select_sections_length in Hsel.
    apply Forall2_length in Hrec. unfold OutputGenerator.max_sections in Hsel.
    split; lia.
Qed.

Lemma output_has_at_most_five_sections_witness :
  length (OutputGenerator.extracted_sections four_sections_output) <= 5
  /\ length (OutputGenerator.subsection_analysis four_sections_output)
     = length (OutputGenerator.extracted_sections four_sections_output).
Proof.
  apply (output_has_at_most_five_sections two_documents (py "Student")
           (py "Learn basics") four_sections (py "2025-01-01T00:00:00")).
  vm_compute. reflexivity.
Defined.

(** X2. The importance ranks of the output are 1, 2, ..., in the order of
    the list: 1-based and without gaps. *)
Theorem importance_ranks_are_dense
    (documents : list str) (persona job : str)
    (ranked_sections : list (Q * section)) (now : str)
    (out : OutputGenerator.output) :
  OutputGenerator.generate_combined_output documents persona job ranked_sections now
  = Some out ->
  map OutputGenerator.importance_rank (OutputGenerator.extracted_sections out)
  = seq 1 (length (OutputGenerator.extracted_sections out)).
Proof.
  intros H. destruct ranked_sections as [|r0 ranked].
  - injection H as <-. reflexivity.
  - apply generate_combined_output_inv in H; [|discriminate].
    destruct H as [st [_ [Hrec [Hranks _]]]].
    apply Forall2_length in Hrec. now rewrite Hranks, Hrec.
Qed.

Lemma importance_ranks_are_dense_witness :
  map OutputGenerator.importance_rank
    (OutputGenerator.extracted_sections four_sections_output)
  = seq 1 (length (OutputGenerator.extracted_sections four_sections_output)).
Proof.
  apply (importance_ranks_are_dense two_documents (py "Student")
           (py "Learn basics") four_sections (py "2025-01-01T00:00:00")).
  vm_compute. reflexivity.
Defined.

Lemma eligible_record_key r e :
  eligible r -> record_of r e -> record_key e = pick_key r.
Proof.
  intros [Hok _] [Hdoc [Htitle Hpage]].
  unfold record_key, pick_key, OutputGenerator.section_key_of.
  rewrite Hdoc, Htitle, Hpage. cbn [default from_option id].
  unfold OutputGenerator.stripped_title in *.
  destruct (section_title (snd r)) as [t|]; [reflexivity|].
  vm_compute in Hok. discriminate.
Qed.

(** X3. No two records of the output have the same document, the same
    title up to case and surrounding white space, and the same page. *)
Theorem output_records_are_distinct
    (documents : list str) (persona job : str)
    (ranked_sections : list (Q * section)) (now : str)
    (out : OutputGenerator.output) :
  OutputGenerator.generate_combined_output documents persona job ranked_sections now
  = Some out ->
  NoDup (map record_key (OutputGenerator.extracted_sections out)).
Proof.
  intros H. destruct ranked_sections as [|r0 ranked].
  - injection H as <-. constructor.
  - apply generate_combined_output_inv in H; [|discriminate].
    destruct H as [st [Hsel [Hrec _]]].
    pose proof (select_sections_keyed _ _ _ Hsel) as [Hnd _].
    pose proof (select_sections_picks _ _ _ Hsel) as Hel.
    replace (map record_key (OutputGenerator.extracted_sections out))
      with (map pick_key (OutputGenerator.final_sections st)); [exact Hnd|].
    clear Hnd Hsel. induction Hrec as [|r e picks records Hre Hrec IH]; [reflexivity|].
    apply Forall_cons in Hel. destruct Hel as [[_ He] Hel].
    simpl. f_equal; [|now apply IH]. symmetry. now apply eligible_record_key.
Qed.

Lemma output_records_are_distinct_witness :
  NoDup (map record_key (OutputGenerator.extracted_sections four_sections_output)).
Proof.
  apply (output_records_are_distinct two_documents (py "Student")
           (py "Learn basics") four_sections (py "2025-01-01T00:00:00")).
  vm_compute. reflexivity.
Defined.

(** Stripping twice is stripping once. *)
Lemma strip_head_nonspace (t : str) (c : char) (s : str) :
  strip t = c :: s -> isspace c = false.
Proof.
  unfold strip, rstrip. intros E.
  destruct (lstrip t) as [|a l] eqn:El; [discriminate|].
  apply lstrip_head in El as Ha.
  destruct (lstrip_suffix (rev (a :: l))) as [pre [Ep Hpre]].
  apply (f_equal (@rev char)) in Ep.
  rewrite rev_involutive, rev_app_distr, E in Ep.
  simpl in Ep. now injection Ep as -> _.
Qed.

Lemma strip_strip (t : str) : strip (strip t) = strip t.
Proof.
  unfold strip at 1.
  assert (Hl : lstrip (strip t) = strip t).
  { destruct (strip t) as [|c s] eqn:E; [reflexivity|].
    apply strip_head_nonspace in E. simpl. now rewrite E. }
  rewrite Hl. unfold rstrip, strip, rstrip. rewrite rev_involutive.
  destruct (lstrip (rev (lstrip t))) as [|c s] eqn:E; [reflexivity|].
  apply lstrip_head in E as Hc. simpl. now rewrite Hc.
Qed.

(** X4. Every record of the output is the record of one of the ranked
    sections, and its trimmed title has at least three characters. *)
Theorem output_records_come_from_ranked_sections
    (documents : list str) (persona job : str)
    (ranked_sections : list (Q * section)) (now : str)
    (out : OutputGenerator.output) :
  OutputGenerator.generate_combined_output documents persona job ranked_sections now
  = Some out ->
  Forall (fun e => 3 <= length (strip (OutputGenerator.es_section_title e))
                   /\ exists r, r ∈ ranked_sections /\ record_of r e)
    (OutputGenerator.extracted_sections out).
Proof.
  intros H. destruct ranked_sections as [|r0 ranked].
  - injection H as <-. constructor.
  - apply generate_combined_output_inv in H; [|discriminate].
    destruct H as [st [Hsel [Hrec _]]].
    pose proof (select_sections_picks _ _ _ Hsel) as Hel. clear Hsel.
    induction Hrec as [|r e picks records Hre Hrec IH]; [constructor|].
    apply Forall_cons in Hel. destruct Hel as [[Hin He] Hel].
    constructor; [|now apply IH]. split; [|now exists r].
    destruct He as [Hok _]. destruct Hre as [_ [Htitle _]]. rewrite Htitle.
    unfold OutputGenerator.title_ok, OutputGenerator.stripped_title in Hok.
    apply andb_prop in Hok. destruct Hok as [Ht Hlen]. apply Nat.leb_le in Hlen.
    destruct (section_title (snd r)) as [t|]; [|vm_compute in Ht; discriminate].
    cbn [default from_option id] in *.
    now rewrite strip_strip in Hlen.
Qed.

Lemma output_records_come_from_ranked_sections_witness :
  Forall (fun e => 3 <= length (strip (OutputGenerator.es_section_title e))
                   /\ exists r, r ∈ four_sections /\ record_of r e)
    (OutputGenerator.extracted_sections four_sections_output).
Proof.
  apply (output_records_come_from_ranked_sections two_documents (py "Student")
           (py "Learn basics") four_sections (py "2025-01-01T00:00:00")).
  vm_compute. reflexivity.
Defined.

(** X5. The picks of the first pass are a subsequence of the ranked list:
    they keep its order. *)
Theorem first_pass_keeps_ranked_order
    (quota : nat) (ranked_sections : list (Q * section))
    (st : OutputGenerator.selection) :
  OutputGenerator.first_pass quota ranked_sections OutputGenerator.empty_selection
  = Some st ->
  OutputGenerator.final_sections st `sublist_of` ranked_sections.
Proof.
  intros H. apply first_pass_picks in H. destruct H as [picks [E [Hsub _]]].
  simpl in E. now rewrite E.
Qed.

Lemma first_pass_keeps_ranked_order_witness :
  OutputGenerator.final_sections
    (default OutputGenerator.empty_selection
       (OutputGenerator.first_pass 2 four_sections OutputGenerator.empty_selection))
  `sublist_of` four_sections.
Proof.
  apply (first_pass_keeps_ranked_order 2 four_sections).
  vm_compute. reflexivity.
Defined.

(** ** More on the duplicate filter *)

Section DuplicateFilterFacts.
Import RelevanceModel.
Variable similarity_threshold : Q.

Lemma seen_of_app l1 l2 : seen_of (l1 ++ l2) = seen_of l1 ++ seen_of l2.
Proof. unfold seen_of. apply map_app. Qed.

Lemma clean_nil : clean similarity_threshold [].
Proof. intros [|x l1] a l2 E; discriminate. Qed.

Lemma clean_snoc filtered r :
  clean similarity_threshold filtered ->
  existsb (too_similar similarity_threshold (dedup_heading (snd r))) (seen_of filtered)
  = false ->
  clean similarity_threshold (filtered ++ [r]).
Proof.
  intros Hc Hr l1 a l2 E.
  destruct l2 as [|b l2 _] using rev_ind.
  - apply app_inj_tail in E. destruct E as [-> ->]. exact Hr.
  - rewrite app_comm_cons, app_assoc in E. apply app_inj_tail in E.
    destruct E as [E _]. now apply (Hc l1 a l2).
Qed.

Lemma fold_filter_inv ranked filtered :
  clean similarity_threshold filtered ->
  exists kept,
    fold_left (filter_step similarity_threshold) ranked (filtered, seen_of filtered)
    = (filtered ++ kept, seen_of (filtered ++ kept))
    /\ kept `sublist_of` ranked
    /\ clean similarity_threshold (filtered ++ kept)
    /\ forall r, r ∈ ranked ->
         r ∈ kept
         \/ exists k, k ∈ filtered ++ kept
              /\ too_similar similarity_threshold (dedup_heading (snd r))
                   (dedup_heading (snd k)) = true.
Proof.
  revert filtered. induction ranked as [|r ranked IH]; intros filtered Hc.
  - exists []. rewrite app_nil_r. repeat split; [constructor|exact Hc|].
    intros r Hr. now apply elem_of_nil in Hr.
  - cbn [fold_left]. unfold filter_step at 2.
    destruct (existsb _ (seen_of filtered)) eqn:Hdup; cbn [negb].
    + destruct (IH filtered Hc) as [kept [E [Hsub [Hc' Hall]]]].
      exists kept. repeat split; [exact E|now apply sublist_cons|exact Hc'|].
      intros x Hx. apply elem_of_cons in Hx. destruct Hx as [->|Hx]; [|now apply Hall].
      right. apply existsb_exists in Hdup. destruct Hdup as [h [Hin Hsim]].
      unfold seen_of in Hin. apply in_map_iff in Hin.
      destruct Hin as [k [<- Hk]]. exists k. split; [|exact Hsim].
      apply elem_of_app. left. now apply list_elem_of_In.
    + pose proof (clean_snoc filtered r Hc Hdup) as Hc1.
      destruct (IH (filtered ++ [r]) Hc1) as [kept [E [Hsub [Hc' Hall]]]].
      rewrite seen_of_app in E. rewrite <- app_assoc in E, Hc', Hall.
      exists (r :: kept). repeat split.
      * exact E.
      * now apply sublist_skip.
      * exact Hc'.
      * intros x Hx. apply elem_of_cons in Hx. destruct Hx as [->|Hx].
        -- left. apply elem_of_cons. now left.
        -- destruct (Hall x Hx) as [Hk|Hk]; [|now right].
           left. apply elem_of_cons. now right.
Qed.

Lemma filter_duplicates_inv ranked :
  filter_duplicates ranked similarity_threshold `sublist_of` ranked
  /\ clean similarity_threshold (filter_duplicates ranked similarity_threshold)
  /\ forall r, r ∈ ranked ->
       r ∈ filter_duplicates ranked similarity_threshold
       \/ exists k, k ∈ filter_duplicates ranked similarity_threshold
            /\ too_similar similarity_threshold (dedup_heading (snd r))
                 (dedup_heading (snd k)) = true.
Proof.
  unfold filter_duplicates. destruct ranked as [|r0 ranked].
  - simpl. repeat split; [constructor|exact clean_nil|].
    intros r Hr. now apply elem_of_nil in Hr.
  - cbn [truthy negb].
    destruct (fold_filter_inv (r0 :: ranked) [] clean_nil) as [kept [E [Hsub [Hc Hall]]]].
    change (seen_of []) with (@nil str) in E. rewrite E. simpl in *.
    repeat split; assumption.
Qed.

Lemma too_similar_sym a b :
  too_similar similarity_threshold a b = too_similar similarity_threshold b a.
Proof.
  unfold too_similar. cbv zeta.
  rewrite (comm_L (∩) (token_set a) (token_set b)).
  rewrite (comm_L (∪) (token_set a) (token_set b)).
  now rewrite andb_comm.
Qed.
End DuplicateFilterFacts.

(** X6. The duplicate filter returns a subsequence of its input: it drops
    sections, and neither reorders nor changes the ones it keeps. *)
Theorem filter_duplicates_is_subsequence
    (ranked_results : list (Q * section)) (similarity_threshold : Q) :
  RelevanceModel.filter_duplicates ranked_results similarity_threshold
  `sublist_of` ranked_results.
Proof. apply filter_duplicates_inv. Qed.

(** X7. Of two sections that the filter keeps, the later one is not too
    similar to the earlier one, and none of the two to the other: the
    similarity test is symmetric. *)
Theorem kept_sections_are_dissimilar
    (ranked_results : list (Q * section)) (similarity_threshold : Q)
    (l1 l2 l3 : list (Q * section)) (a b : Q * section) :
  RelevanceModel.filter_duplicates ranked_results similarity_threshold
  = l1 ++ a :: l2 ++ b :: l3 ->
  RelevanceModel.too_similar similarity_threshold
    (RelevanceModel.dedup_heading (snd b)) (RelevanceModel.dedup_heading (snd a)) = false
  /\ RelevanceModel.too_similar similarity_threshold
       (RelevanceModel.dedup_heading (snd a)) (RelevanceModel.dedup_heading (snd b))
     = false.
Proof.
  intros E.
  destruct (filter_duplicates_inv similarity_threshold ranked_results) as [_ [Hc _]].
  rewrite E in Hc. specialize (Hc (l1 ++ a :: l2) b l3).
  rewrite <- app_assoc in Hc. specialize (Hc eq_refl).
  assert (H : RelevanceModel.too_similar similarity_threshold
                (RelevanceModel.dedup_heading (snd b))
                (RelevanceModel.dedup_heading (snd a)) = false).
  { destruct (RelevanceModel.too_similar _ _ _) eqn:Hs; [|reflexivity].
    rewrite <- Hc. symmetry. apply existsb_exists.
    exists (RelevanceModel.dedup_heading (snd a)). split; [|exact Hs].
    unfold seen_of. apply in_map_iff. exists a. split; [reflexivity|].
    apply in_or_app. right. now left. }
  split; [exact H|]. now rewrite too_similar_sym.
Qed.

Lemma kept_sections_are_dissimilar_witness :
  RelevanceModel.too_similar (7 # 10)
    (py "other findings") (py "results overview") = false
  /\ RelevanceModel.too_similar (7 # 10)
       (py "results overview") (py "other findings") = false.
Proof.
  apply (kept_sections_are_dissimilar duplicate_sections (7 # 10) [] [] []
           (9 # 10, sample_section "a.pdf" "Results Overview"
                      "one two three four five six" 1)%Q
           (3 # 10, sample_section "a.pdf" "Other Findings"
                      "one two three four five six" 3)%Q).
  vm_compute. reflexivity.
Defined.

(** X8. A section is dropped only when it is too similar to a section
    that is kept: every input section is kept or is too similar to one of
    the kept sections. *)
Theorem dropped_sections_have_a_kept_neighbour
    (ranked_results : list (Q * section)) (similarity_threshold : Q)
    (r : Q * section) :
  r ∈ ranked_results ->
  r ∈ RelevanceModel.filter_duplicates ranked_results similarity_threshold
  \/ exists k,
       k ∈ RelevanceModel.filter_duplicates ranked_results similarity_threshold
       /\ RelevanceModel.too_similar similarity_threshold
            (RelevanceModel.dedup_heading (snd r))
            (RelevanceModel.dedup_heading (snd k)) = true.
Proof. apply filter_duplicates_inv. Qed.

Lemma dropped_sections_have_a_kept_neighbour_witness :
  (85 # 100, sample_section "a.pdf" "Results overview" "one two three four five six" 2)%Q
    ∈ RelevanceModel.filter_duplicates duplicate_sections (7 # 10)
  \/ exists k,
       k ∈ RelevanceModel.filter_duplicates duplicate_sections (7 # 10)
       /\ RelevanceModel.too_similar (7 # 10)
            (RelevanceModel.dedup_heading
               (snd (85 # 100, sample_section "a.pdf" "Results overview"
                                 "one two three four five six" 2)%Q))
            (RelevanceModel.dedup_heading (snd k)) = true.
Proof.
  apply (dropped_sections_have_a_kept_neighbour duplicate_sections (7 # 10)).
  apply elem_of_cons. right. apply elem_of_cons. now left.
Defined.

Section SimilarityFacts.
Import RelevanceModel.

Lemma Qdiv_nat_same n : 0 < n -> (Qdiv_nat n n == 1)%Q.
Proof.
  intros Hn. unfold Qdiv_nat. apply Qmult_inv_r.
  unfold Qeq. simpl. lia.
Qed.

Lemma token_set_empty h : token_set h = ∅ -> split h = [].
Proof.
  unfold token_set. destruct (split h) as [|w ws]; [reflexivity|].
  intros E. exfalso. apply (not_elem_of_empty (C := gset str) w).
  rewrite <- E. apply elem_of_list_to_set. now left.
Qed.

(** A heading with a token is too similar to itself below threshold 1. *)
Lemma too_similar_refl similarity_threshold h :
  (similarity_threshold < 1)%Q -> split h <> [] ->
  too_similar similarity_threshold h h = true.
Proof.
  intros Ht Hne. unfold too_similar. cbv zeta.
  assert (Hw : token_set h <> ∅) by (intros E; now apply token_set_empty in E).
  rewrite bool_decide_eq_false_2 by exact Hw. cbn [negb andb].
  rewrite (idemp_L (∩) (token_set h)), (idemp_L (∪) (token_set h)).
  unfold Qgtb. apply negb_true_iff.
  destruct (Qle_bool _ _) eqn:Hle; [|reflexivity].
  apply Qle_bool_imp_le in Hle. exfalso.
  assert (Hsize : 0 < size (token_set h)).
  { destruct (size (token_set h)) eqn:E; [|lia].
    apply size_empty_iff in E. apply leibniz_equiv in E. contradiction. }
  rewrite (Qdiv_nat_same _ Hsize) in Hle.
  now apply (Qlt_not_le _ _ Ht).
Qed.
End SimilarityFacts.

(** X9. Below threshold 1, two kept sections have the same heading, up to
    case and surrounding white space, only if that heading has no token:
    a repeated heading with a token is kept at most once. *)
Theorem repeated_heading_is_kept_at_most_once
    (ranked_results : list (Q * section)) (similarity_threshold : Q)
    (l1 l2 l3 : list (Q * section)) (a b : Q * section) :
  (similarity_threshold < 1)%Q ->
  RelevanceModel.filter_duplicates ranked_results similarity_threshold
  = l1 ++ a :: l2 ++ b :: l3 ->
  RelevanceModel.dedup_heading (snd a) = RelevanceModel.dedup_heading (snd b) ->
  split (RelevanceModel.dedup_heading (snd a)) = [].
Proof.
  intros Ht E Hsame.
  destruct (filter_duplicates_inv similarity_threshold ranked_results) as [_ [Hc _]].
  rewrite E in Hc. specialize (Hc (l1 ++ a :: l2) b l3).
  rewrite <- app_assoc in Hc. specialize (Hc eq_refl).
  destruct (split (RelevanceModel.dedup_heading (snd a))) as [|w ws] eqn:Hs;
    [reflexivity|].
  exfalso.
  assert (Hsim : RelevanceModel.too_similar similarity_threshold
                   (RelevanceModel.dedup_heading (snd b))
                   (RelevanceModel.dedup_heading (snd a)) = true).
  { rewrite <- Hsame. apply too_similar_refl; [exact Ht|]. now rewrite Hs. }
  assert (Hex : existsb
                  (RelevanceModel.too_similar similarity_threshold
                     (RelevanceModel.dedup_heading (snd b)))
                  (seen_of (l1 ++ a :: l2)) = true).
  { apply existsb_exists. exists (RelevanceModel.dedup_heading (snd a)).
    split; [|exact Hsim]. unfold seen_of. apply in_map_iff.
    exists a. split; [reflexivity|]. apply in_or_app. right. now left. }
  congruence.
Qed.

Lemma repeated_heading_is_kept_at_most_once_witness :
  split (RelevanceModel.dedup_heading (untitled_section 1)) = [].
Proof.
  apply (repeated_heading_is_kept_at_most_once untitled_sections (7 # 10) [] [] []
           (9 # 10, untitled_section 1)%Q (8 # 10, untitled_section 2)%Q).
  - reflexivity.
  - vm_compute. reflexivity.
  - vm_compute. reflexivity.
Defined.

(** ** The scorer *)

Section SortFacts.
Import RelevanceModel.
Context {A : Type}.

Lemma Qgtb_false_le (a b : Q) : Qgtb a b = false -> Qle_bool a b = true.
Proof. unfold Qgtb. now destruct (Qle_bool a b). Qed.

Lemma Qgtb_true_le (a b : Q) : Qgtb a b = true -> Qle_bool b a = true.
Proof.
  unfold Qgtb. intros H. apply negb_true_iff in H.
  apply Qle_bool_iff. apply Qlt_le_weak, Qnot_le_lt.
  intros Hle. apply Qle_bool_iff in Hle. congruence.
Qed.

Lemma score_descending_cons (a : Q) (l : list Q) :
  score_descending (a :: l) = true <->
  match l with [] => True | b :: _ => Qle_bool b a = true end
  /\ score_descending l = true.
Proof.
  destruct l as [|b l]; simpl.
  - tauto.
  - rewrite andb_true_iff. tauto.
Qed.

Lemma insert_desc_descending (x : Q * A) (l : list (Q * A)) :
  score_descending (map fst l) = true ->
  score_descending (map fst (insert_desc x l)) = true.
Proof.
  induction l as [|y l IH]; intros Hl; [reflexivity|].
  cbn [insert_desc]. destruct (Qgtb (fst y) (fst x)) eqn:Hgt.
  - cbn [map] in *. apply score_descending_cons in Hl. destruct Hl as [Hhd Hl].
    apply score_descending_cons. split; [|now apply IH].
    destruct l as [|z l]; cbn [insert_desc map].
    + now apply Qgtb_true_le.
    + destruct (Qgtb (fst z) (fst x)); cbn [map]; [exact Hhd|now apply Qgtb_true_le].
  - cbn [map] in *. apply score_descending_cons. split; [|exact Hl].
    now apply Qgtb_false_le.
Qed.

Lemma sort_desc_descending (l : list (Q * A)) :
  score_descending (map fst (sort_desc l)) = true.
Proof.
  induction l as [|x l IH]; [reflexivity|].
  unfold sort_desc in *. cbn [fold_right]. now apply insert_desc_descending.
Qed.

Lemma insert_desc_perm (x : Q * A) (l : list (Q * A)) :
  Permutation (insert_desc x l) (x :: l).
Proof.
  induction l as [|y l IH]; [reflexivity|].
  cbn [insert_desc]. destruct (Qgtb _ _); [|reflexivity].
  rewrite IH. apply perm_swap.
Qed.

Lemma sort_desc_perm (l : list (Q * A)) : Permutation (sort_desc l) l.
Proof.
  induction l as [|x l IH]; [reflexivity|].
  unfold sort_desc in *. cbn [fold_right]. rewrite insert_desc_perm. now constructor.
Qed.

Lemma sort_desc_sorted_id (l : list (Q * A)) :
  score_descending (map fst l) = true -> sort_desc l = l.
Proof.
  induction l as [|x l IH]; intros Hl; [reflexivity|].
  cbn [map] in Hl. apply score_descending_cons in Hl. destruct Hl as [Hhd Hl].
  unfold sort_desc in *. cbn [fold_right]. rewrite (IH Hl).
  destruct l as [|y l]; [reflexivity|].
  cbn [insert_desc map] in *. unfold Qgtb. now rewrite Hhd.
Qed.
End SortFacts.

Section ScoringFacts.
Import RelevanceModel.
Variable tfidf_similarity : str -> list str -> option (list Q).
Variable model : option (str -> list str -> option (list Q)).

Lemma imap_snd {B} (f : nat -> section -> B) (l : list section) :
  map snd (imap (fun idx s => (f idx s, s)) l) = l.
Proof.
  revert f. induction l as [|s l IH]; intros f; [reflexivity|].
  rewrite imap_cons. simpl. f_equal. apply (IH (f ∘ S)).
Qed.

Lemma score_sections_inv query sections :
  score_descending (map fst (score_sections tfidf_similarity model query sections)) = true
  /\ Permutation (map snd (score_sections tfidf_similarity model query sections))
       (List.filter has_heading sections).
Proof.
  unfold score_sections. destruct sections as [|s0 sections]; [now split|].
  cbn [truthy negb].
  fold has_heading.
  destruct (List.filter has_heading (s0 :: sections)) as [|c0 clean] eqn:Hclean.
  - now split.
  - cbn [map truthy negb]. cbv zeta. split.
    + apply sort_desc_descending.
    + rewrite sort_desc_perm. now rewrite imap_snd.
Qed.
End ScoringFacts.

(** X10. The scorer returns its results in descending order of score. *)
Theorem score_sections_is_descending
    (tfidf_similarity : str -> list str -> option (list Q))
    (model : option (str -> list str -> option (list Q)))
    (query : str) (sections : list section) :
  score_descending
    (map fst (RelevanceModel.score_sections tfidf_similarity model query sections))
  = true.
Proof. apply score_sections_inv. Qed.

(** X11. The scorer scores each section that has a heading (a non-blank
    title, or text when the title is missing) exactly once, and no other:
    sections are neither lost nor repeated by the ranking. *)
Theorem score_sections_keeps_headed_sections
    (tfidf_similarity : str -> list str -> option (list Q))
    (model : option (str -> list str -> option (list Q)))
    (query : str) (sections : list section) :
  Permutation
    (map snd (RelevanceModel.score_sections tfidf_similarity model query sections))
    (List.filter has_heading sections).
Proof. apply score_sections_inv. Qed.

(** X12. The sort of the scorer is stable on sorted input: results that
    are already in descending order, ties included, keep their order. *)
Theorem sort_desc_keeps_descending_input (ranked : list (Q * section)) :
  score_descending (map fst ranked) = true ->
  RelevanceModel.sort_desc ranked = ranked.
Proof. apply sort_desc_sorted_id. Qed.

Lemma sort_desc_keeps_descending_input_witness :
  RelevanceModel.sort_desc four_sections = four_sections.
Proof.
  apply (sort_desc_keeps_descending_input four_sections).
  vm_compute. reflexivity.
Defined.

Section ScoreBounds.
Import RelevanceModel.

Lemma Qdiv_nat_bounds (a b : nat) :
  a <= b -> 0 < b -> (0 <= Qdiv_nat a b /\ Qdiv_nat a b <= 1)%Q.
Proof.
  intros Hab Hb. unfold Qdiv_nat.
  assert (Hpos : (0 < inject_Z (Z.of_nat b))%Q).
  { unfold Qlt. simpl. lia. }
  split.
  - apply Qle_shift_div_l; [exact Hpos|]. rewrite Qmult_0_l.
    unfold Qle. simpl. lia.
  - apply Qle_shift_div_r; [exact Hpos|]. rewrite Qmult_1_l.
    rewrite <- Zle_Qle. lia.
Qed.

Lemma keyword_overlap_bounds query enhanced_text :
  (0 <= keyword_overlap query enhanced_text /\ keyword_overlap query enhanced_text <= 1)%Q.
Proof.
  unfold keyword_overlap. cbv zeta. apply Qdiv_nat_bounds; [|lia].
  etransitivity; [|apply Nat.le_max_l].
  apply subseteq_size, intersection_subseteq_l.
Qed.

Lemma length_bonus_bounds s :
  (0 <= length_bonus s /\ length_bonus s <= 1 # 10)%Q.
Proof.
  unfold length_bonus. split.
  - apply Q.min_glb; [|discriminate].
    unfold Qdiv_nat. apply Qle_shift_div_l; [reflexivity|].
    rewrite Qmult_0_l. unfold Qle. simpl. lia.
  - apply Q.le_min_r.
Qed.

End ScoreBounds.

(** X13. The keyword overlap of a query and a text is a fraction between
    0 and 1, and the length bonus of a section lies between 0 and its cap
    0.1. *)
Theorem keyword_overlap_and_length_bonus_are_bounded
    (query enhanced_text : str) (s : section) :
  (0 <= RelevanceModel.keyword_overlap query enhanced_text
   /\ RelevanceModel.keyword_overlap query enhanced_text <= 1
   /\ 0 <= RelevanceModel.length_bonus s
   /\ RelevanceModel.length_bonus s <= 1 # 10)%Q.
Proof.
  destruct (keyword_overlap_bounds query enhanced_text) as [Hk0 Hk1].
  destruct (length_bonus_bounds s) as [Hl0 Hl1].
  now repeat split.
Qed.

(** ** More on the parser *)

Section AssemblerFacts.
Import PdfParser.
Variable summarize : str -> option str.
Variable heading : span_data -> bool.

Lemma save_section_assembling lines st secs :
  assembling summarize heading lines st ->
  save_section summarize st = Some secs ->
  Forall (fun s => headed_by heading lines s /\ summarized_by summarize s) secs.
Proof.
  intros [Hsecs Hopen]. unfold save_section.
  destruct (heading_truthy _ && truthy _) eqn:Ho; [|now intros [= <-]].
  destruct (truthy (strip _)); [|now intros [= <-]].
  destruct (current_heading st) as [h|] eqn:Hh; [|discriminate].
  destruct (Hopen h eq_refl) as [sd [Hin [Hsd [-> Hpage]]]].
  destruct (if 40 <? _ then _ else _) as [summarized|] eqn:Hsum; [|discriminate].
  cbn [mbind option_bind]. intros [= <-].
  apply Forall_app. split; [exact Hsecs|]. constructor; [|constructor]. split.
  - exists sd. cbn. now repeat split.
  - eexists. cbn. split; [reflexivity|]. now rewrite <- Hsum.
Qed.

Lemma assemble_fold_assembling lines l st st' :
  (forall sd, sd ∈ l -> sd ∈ lines) ->
  assembling summarize heading lines st ->
  fold_left (assemble_step summarize heading) l (Some st) = Some st' ->
  assembling summarize heading lines st'.
Proof.
  revert st. induction l as [|sd l IH]; intros st Hl Hst.
  - simpl. now intros [= <-].
  - cbn [fold_left]. unfold assemble_step at 2. cbn [mbind option_bind].
    assert (Hl' : forall x, x ∈ l -> x ∈ lines).
    { intros x Hx. apply Hl. now right. }
    destruct (heading sd) eqn:Hsd.
    + destruct (save_section summarize st) as [secs|] eqn:Hsave.
      2:{ cbn [mbind option_bind]. rewrite assemble_fold_None. discriminate. }
      cbn [mbind option_bind]. apply (IH _ Hl'). split; cbn.
      * now apply (save_section_assembling lines st).
      * intros h [= <-]. exists sd. repeat split; [|exact Hsd].
        apply Hl. now left.
    + destruct (heading_truthy _).
      * apply (IH _ Hl'). destruct Hst as [Hs Ho]. split; cbn; assumption.
      * now apply (IH _ Hl').
Qed.

Lemma assemble_assembling lines secs :
  assemble summarize heading lines = Some secs ->
  Forall (fun s => headed_by heading lines s /\ summarized_by summarize s) secs.
Proof.
  unfold assemble.
  destruct (fold_left _ lines (Some initial)) as [st|] eqn:Hfold; [|discriminate].
  cbn [mbind option_bind]. apply save_section_assembling.
  apply (assemble_fold_assembling lines lines initial); [auto| |exact Hfold].
  split; cbn; [constructor|discriminate].
Qed.

(** Lines before the first heading leave the assembler as it starts. *)
Lemma assemble_fold_no_heading pre :
  Forall (fun sd => heading sd = false) pre ->
  fold_left (assemble_step summarize heading) pre (Some initial) = Some initial.
Proof.
  induction 1 as [|sd pre Hsd _ IH]; [reflexivity|].
  cbn [fold_left]. unfold assemble_step at 2. cbn [mbind option_bind].
  rewrite Hsd. exact IH.
Qed.
End AssemblerFacts.

Lemma extract_assembling summarize doc secs :
  PdfParser.extract_headings_with_context summarize doc = Some secs ->
  Forall (fun s => headed_by (classifier doc) (fst (PdfParser.collect doc)) s
                   /\ summarized_by summarize s) secs.
Proof.
  unfold PdfParser.extract_headings_with_context, classifier, PdfParser.body_font.
  destruct (PdfParser.collect doc) as [spans_data font_stats]. cbn [fst snd].
  destruct (PdfParser.dict_max_key font_stats) as [[body_size body_is_bold]|].
  - destruct (PdfParser.assemble _ _ _) as [built|] eqn:Hb; [|discriminate].
    cbn [mbind option_bind]. intros [= <-].
    apply assemble_assembling in Hb. rewrite Forall_forall in *.
    intros s Hs. apply Hb. apply list_elem_of_In. apply list_elem_of_In in Hs.
    now apply filter_In in Hs.
  - intros [= <-]. constructor.
Qed.

(** X14. Every section the segmentation returns is headed by a line that
    the classifier accepts: its title and text are the text of that line,
    its page is the page of that line, and it carries no document yet. *)
Theorem returned_sections_are_headed_by_headings
    (summarize : str -> option str) (doc : PdfParser.pdf_document)
    (secs : list section) :
  PdfParser.extract_headings_with_context summarize doc = Some secs ->
  Forall (headed_by (classifier doc) (fst (PdfParser.collect doc))) secs.
Proof.
  intros H. apply extract_assembling in H.
  eapply Forall_impl; [exact H|]. now intros s [Hs _].
Qed.

Lemma returned_sections_are_headed_by_headings_witness :
  Forall (headed_by (classifier short_body_document)
            (fst (PdfParser.collect short_body_document)))
    (default [] (sample_extract short_body_document)).
Proof.
  apply (returned_sections_are_headed_by_headings
           (fun text => Summarizer.summarize_text sample_sent_tokenize
                          sample_fit_transform sample_argsort text 3)).
  vm_compute. reflexivity.
Defined.

(** X15. The summary of a returned section is its body itself when the
    body has at most 40 words; the summarizer is used beyond 40 words
    only. *)
Theorem short_bodies_are_their_own_summary
    (summarize : str -> option str) (doc : PdfParser.pdf_document)
    (secs : list section) :
  PdfParser.extract_headings_with_context summarize doc = Some secs ->
  Forall (summarized_by summarize) secs.
Proof.
  intros H. apply extract_assembling in H.
  eapply Forall_impl; [exact H|]. now intros s [_ Hs].
Qed.

Lemma short_bodies_are_their_own_summary_witness :
  Forall (summarized_by
            (fun text => Summarizer.summarize_text sample_sent_tokenize
                           sample_fit_transform sample_argsort text 3))
    (default [] (sample_extract short_body_document)).
Proof.
  apply (short_bodies_are_their_own_summary _ short_body_document).
  vm_compute. reflexivity.
Defined.

(** X16. Lines before the first heading-accepted line are discarded: they
    change nothing in what the assembler builds. *)
Theorem lines_before_first_heading_are_discarded
    (summarize : str -> option str) (heading : PdfParser.span_data -> bool)
    (pre lines : list PdfParser.span_data) :
  Forall (fun sd => heading sd = false) pre ->
  PdfParser.assemble summarize heading (pre ++ lines)
  = PdfParser.assemble summarize heading lines.
Proof.
  intros Hpre. unfold PdfParser.assemble.
  now rewrite fold_left_app, assemble_fold_no_heading.
Qed.

Lemma lines_before_first_heading_are_discarded_witness :
  PdfParser.assemble (fun text => Some text)
    (PdfParser.is_heading (Q2Qc 10) false)
    ([ {| PdfParser.sd_text := py "an orphan line of body text";
          PdfParser.sd_spans := [sample_span "an orphan line of body text" 10 0];
          PdfParser.sd_page := 1 |} ]
     ++ fst (PdfParser.collect short_body_document))
  = PdfParser.assemble (fun text => Some text)
      (PdfParser.is_heading (Q2Qc 10) false)
      (fst (PdfParser.collect short_body_document)).
Proof.
  apply (lines_before_first_heading_are_discarded (fun text => Some text)
           (PdfParser.is_heading (Q2Qc 10) false)).
  constructor; [|constructor]. vm_compute. reflexivity.
Defined.

(** X17. The font profile counts words whatever the order of the lines:
    two documents with the same lines in different orders have the same
    word count for every (size, bold) pair, namely the number of words of
    the spans in that font. *)
Theorem font_stats_do_not_depend_on_line_order
    (doc doc' : PdfParser.pdf_document) (k : PdfParser.font_key) :
  Permutation (doc_lines doc) (doc_lines doc') ->
  PdfParser.dict_get k (snd (PdfParser.collect doc))
  = aggregate_words k (doc_lines doc)
  /\ PdfParser.dict_get k (snd (PdfParser.collect doc'))
     = PdfParser.dict_get k (snd (PdfParser.collect doc)).
Proof.
  intros Hperm. rewrite !collect_stats, !add_lines_get. simpl.
  split; [reflexivity|]. symmetry. now apply aggregate_words_perm.
Qed.

Lemma font_stats_do_not_depend_on_line_order_witness :
  PdfParser.dict_get (Q2Qc 12, false) (snd (PdfParser.collect tie_document))
  = aggregate_words (Q2Qc 12, false) (doc_lines tie_document)
  /\ PdfParser.dict_get (Q2Qc 12, false) (snd (PdfParser.collect tie_document_reordered))
     = PdfParser.dict_get (Q2Qc 12, false) (snd (PdfParser.collect tie_document)).
Proof.
  apply (font_stats_do_not_depend_on_line_order tie_document tie_document_reordered).
  apply perm_swap.
Defined.

Section BodyFontFacts.
Import PdfParser.

Lemma runs_nonempty (P : char -> bool) (cur s : str) :
  cur <> [] \/ Exists (fun c => P c = true) s -> runs P cur s <> [].
Proof.
  revert cur. induction s as [|c s IH]; intros cur H; simpl.
  - destruct H as [H|H]; [|now apply Exists_nil in H].
    now destruct cur.
  - destruct (P c) eqn:Hc.
    + apply IH. now left.
    + destruct cur as [|a cur]; [|discriminate].
      apply IH. right. destruct H as [H|H]; [congruence|].
      apply Exists_cons in H. destruct H as [H|H]; [congruence|exact H].
Qed.

Lemma split_has_text (s : str) : has_text s -> split s <> [].
Proof.
  intros H. unfold split. apply runs_nonempty. right.
  eapply Exists_impl; [exact H|]. intros c Hc. simpl in Hc. now rewrite Hc.
Qed.

Lemma dict_add_positive (k : font_key) n (d : list (font_key * nat)) :
  1 <= n -> Forall (fun kv => 1 <= snd kv) d ->
  Forall (fun kv => 1 <= snd kv) (dict_add k n d).
Proof.
  intros Hn. induction 1 as [|[k0 v] d Hv Hd IH]; simpl.
  - constructor; [simpl; lia|constructor].
  - destruct (decide (k = k0)); constructor; simpl in *; auto; lia.
Qed.

Lemma add_span_positive fs sp :
  Forall (fun kv => 1 <= snd kv) fs -> Forall (fun kv => 1 <= snd kv) (add_span fs sp).
Proof.
  intros H. unfold add_span.
  destruct (truthy (strip (span_text sp))) eqn:Ht; [|exact H].
  apply dict_add_positive; [|exact H].
  apply strip_truthy_nonspace, split_has_text in Ht.
  destruct (split (strip (span_text sp))); [congruence|simpl; lia].
Qed.

Lemma add_lines_positive lines :
  Forall (fun kv => 1 <= snd kv) (add_lines [] lines).
Proof.
  unfold add_lines. apply fold_left_invariant; [constructor|].
  intros fs ln Hfs. apply fold_left_invariant; [exact Hfs|].
  intros fs' sp. apply add_span_positive.
Qed.

Lemma dict_get_positive (k : font_key) (d : list (font_key * nat)) :
  Forall (fun kv => 1 <= snd kv) d -> k ∈ map fst d -> 1 <= dict_get k d.
Proof.
  induction 1 as [|[k0 v] d Hv Hd IH]; simpl; intros Hk.
  - now apply elem_of_nil in Hk.
  - destruct (decide (k = k0)); [exact Hv|].
    apply IH. apply elem_of_cons in Hk. destruct Hk; [contradiction|assumption].
Qed.

Lemma dict_max_key_in (d : list (font_key * nat)) (k : font_key) :
  dict_max_key d = Some k -> k ∈ map fst d.
Proof.
  unfold dict_max_key, max_by.
  destruct (map fst d) as [|k0 keys]; [discriminate|]. intros [= <-].
  now destruct (max_by_fold (fun x => dict_get x d) keys k0) as [Hin _].
Qed.
End BodyFontFacts.

(** X18. The body font is a font of the document with the greatest word
    count: it has at least one word, and no (size, bold) pair has more. *)
Theorem body_font_has_the_most_words
    (doc : PdfParser.pdf_document) (k : PdfParser.font_key) :
  PdfParser.body_font doc = Some k ->
  0 < aggregate_words k (doc_lines doc)
  /\ forall k', aggregate_words k' (doc_lines doc) <= aggregate_words k (doc_lines doc).
Proof.
  intros H. split; [|now apply body_font_greatest].
  unfold PdfParser.body_font in H. rewrite collect_stats in H.
  apply dict_max_key_in in H.
  apply (dict_get_positive _ _ (add_lines_positive (doc_lines doc))) in H.
  rewrite add_lines_get in H. simpl in H. lia.
Qed.

Lemma body_font_has_the_most_words_witness :
  0 < aggregate_words (Q2Qc 10, false) (doc_lines majority_document)
  /\ forall k', aggregate_words k' (doc_lines majority_document)
                <= aggregate_words (Q2Qc 10, false) (doc_lines majority_document).
Proof.
  apply (body_font_has_the_most_words majority_document).
  vm_compute. reflexivity.
Defined.

Lemma Qc_leb_plus_half (a : Qc) : PdfParser.Qc_leb (a + Q2Qc (1 # 2))%Qc a = false.
Proof.
  unfold PdfParser.Qc_leb. destruct (Qle_bool _ _) eqn:H; [|reflexivity].
  apply Qle_bool_imp_le in H. exfalso.
  unfold Qcplus, Q2Qc in H. cbn [this] in H.
  rewrite Qred_correct in H. rewrite (Qred_correct (1 # 2)) in H. lra.
Qed.

(** X19. A line set in the body font is never a heading: when the first
    span of the line has the size and the boldness of the body font, the
    classifier rejects the line whatever its text. *)
Theorem body_font_lines_are_not_headings
    (body_size : Qc) (body_is_bold : bool) (sd : PdfParser.span_data)
    (main_span : PdfParser.span) (rest : list PdfParser.span) :
  PdfParser.sd_spans sd = main_span :: rest ->
  PdfParser.span_size main_span = body_size ->
  PdfParser.is_bold (PdfParser.span_flags main_span) = body_is_bold ->
  PdfParser.is_heading body_size body_is_bold sd = false.
Proof.
  intros Hspans Hsize Hbold. unfold PdfParser.is_heading. cbv zeta.
  destruct (PdfParser.is_bullet_point _); [reflexivity|].
  destruct (negb _ || _); [reflexivity|].
  destruct (20 <? _); [reflexivity|].
  destruct (endswith_any _ _); [reflexivity|].
  destruct (existsb _ PdfParser.skip_patterns); [reflexivity|].
  destruct (existsb _ PdfParser.footer_keywords); [reflexivity|].
  rewrite Hspans, Hsize, Hbold, Qc_leb_plus_half.
  now destruct body_is_bold.
Qed.

Lemma body_font_lines_are_not_headings_witness :
  PdfParser.is_heading (Q2Qc 10) false
    {| PdfParser.sd_text := py "Plain Title";
       PdfParser.sd_spans := [sample_span "Plain Title" 10 0];
       PdfParser.sd_page := 1 |} = false.
Proof.
  apply (body_font_lines_are_not_headings (Q2Qc 10) false _
           (sample_span "Plain Title" 10 0) []).
  - reflexivity.
  - reflexivity.
  - reflexivity.
Defined.

(** ** The refined text of the output *)

Section WordFacts.

Lemma runs_word_prefix (w cur s : str) :
  Forall (fun c => isspace c = false) w ->
  runs nonspace cur (w ++ s) = runs nonspace (rev w ++ cur) s.
Proof.
  revert cur. induction w as [|c w IH]; intros cur Hw; [reflexivity|].
  apply Forall_cons in Hw. destruct Hw as [Hc Hw].
  simpl. unfold nonspace at 1. rewrite Hc. cbn [negb].
  rewrite IH by exact Hw. now rewrite <- app_assoc.
Qed.

Lemma runs_are_words (cur s : str) :
  Forall (fun c => isspace c = false) cur ->
  Forall is_word (runs nonspace cur s).
Proof.
  revert cur. induction s as [|c s IH]; intros cur Hcur; simpl.
  - destruct cur as [|a cur]; constructor; [|constructor].
    split.
    + simpl. now destruct (rev cur).
    + apply Forall_forall. intros x Hx. rewrite Forall_forall in Hcur.
      apply Hcur. apply list_elem_of_In. apply in_rev. now apply list_elem_of_In.
  - unfold nonspace at 1. destruct (isspace c) eqn:Hc; cbn [negb].
    + destruct cur as [|a cur]; [now apply IH|].
      constructor; [|now apply IH]. split.
      * simpl. now destruct (rev cur).
      * apply Forall_forall. intros x Hx. rewrite Forall_forall in Hcur.
        apply Hcur. apply list_elem_of_In. apply in_rev. now apply list_elem_of_In.
    + apply IH. now constructor.
Qed.

Lemma split_words (s : str) : Forall is_word (split s).
Proof. apply runs_are_words. constructor. Qed.

(** Words joined by spaces, with a suffix glued to the last one, split
    into as many words. *)
Lemma runs_join_suffix (ws : list str) (x cur : str) :
  ws <> [] -> Forall is_word ws ->
  Forall (fun c => isspace c = false) x ->
  length (runs nonspace cur (join (py " ") ws ++ x)) = length ws.
Proof.
  revert cur. induction ws as [|w ws IH]; intros cur Hne Hws Hx; [congruence|].
  apply Forall_cons in Hws. destruct Hws as [[Hw Hwc] Hws].
  destruct ws as [|w2 ws].
  - cbn [join]. rewrite runs_word_prefix by exact Hwc.
    rewrite <- (app_nil_r x), runs_word_prefix by exact Hx. simpl.
    destruct (rev x ++ rev w ++ cur) eqn:E; [|reflexivity].
    apply app_eq_nil in E. destruct E as [_ E].
    apply app_eq_nil in E. destruct E as [E _].
    apply (f_equal (@rev char)) in E. rewrite rev_involutive in E. now subst.
  - replace (join (py " ") (w :: w2 :: ws) ++ x)
      with (w ++ 32%N :: (join (py " ") (w2 :: ws) ++ x))
      by (cbn [join]; now rewrite <- !app_assoc).
    rewrite runs_word_prefix by exact Hwc.
    cbn [runs]. change (nonspace 32%N) with false. cbv iota.
    destruct (rev w ++ cur) eqn:E.
    + apply app_eq_nil in E. destruct E as [E _].
      apply (f_equal (@rev char)) in E. rewrite rev_involutive in E. now subst.
    + cbn [length]. f_equal. apply IH; [discriminate|exact Hws|exact Hx].
Qed.
End WordFacts.

(** X20. The refined text of an output record is never empty and has at
    most 100 words. *)
Theorem refined_text_has_at_most_100_words (s : section) :
  OutputGenerator.refined_text_of s <> []
  /\ length (split (OutputGenerator.refined_text_of s)) <= 100.
Proof.
  unfold OutputGenerator.refined_text_of. cbv zeta.
  set (stripped := strip _).
  set (refined := if negb (truthy stripped) || (length (split stripped) <? 5)
                  then py "Section covering: "
                       ++ default (py "Unknown topic") (section_title s)
                  else stripped).
  assert (Hne : refined <> []).
  { unfold refined. destruct (negb (truthy stripped) || _) eqn:Hc; [discriminate|].
    apply orb_false_elim in Hc. destruct Hc as [Hc _].
    destruct stripped; [discriminate|discriminate]. }
  destruct (100 <? length (split refined)) eqn:Hlong.
  - apply Nat.ltb_lt in Hlong. split.
    + intros E. apply app_eq_nil in E. destruct E as [_ E]. discriminate.
    + unfold split at 1. rewrite runs_join_suffix.
      * rewrite length_take. lia.
      * destruct (split refined); [simpl in Hlong; lia|discriminate].
      * apply Forall_take, split_words.
      * repeat constructor.
  - apply Nat.ltb_ge in Hlong. split; assumption.
Qed.

(** ** More on the pipeline *)

Section PipelineFacts.
Import PdfParser RelevanceModel OutputGenerator Main.
Variable sent_tokenize : str -> list str.
Variable fit_transform : list str -> option (list (list Q)).
Variable argsort : list Q -> list nat.

Lemma heading_of_tag filename s : heading_of (tag_section filename s) = heading_of s.
Proof.
  unfold heading_of, tag_section. cbn.
  destruct (section_title s), (text s); reflexivity.
Qed.

Lemma validate_tag filename s :
  validate_section (tag_section filename s) = validate_section s.
Proof.
  unfold validate_section. rewrite heading_of_tag. reflexivity.
Qed.

Lemma process_file_gathering listing acc file :
  file ∈ listing ->
  gathering (extract sent_tokenize fit_transform argsort) listing acc ->
  gathering (extract sent_tokenize fit_transform argsort) listing
    (process_file sent_tokenize fit_transform argsort acc file).
Proof.
  destruct acc as [all_sections document_list]. destruct file as [filename pdf].
  intros Hin [Hall Hdocs]. unfold process_file. cbn [fst snd] in *.
  destruct (endswith filename (py ".pdf")) eqn:Hpdf; [|now split].
  destruct pdf as [pdf|]; [|now split]. cbn [mbind option_bind].
  destruct (extract _ _ _ pdf) as [sections|] eqn:Hex; [|now split].
  split; cbn [fst snd].
  - apply Forall_app. split.
    + eapply Forall_impl; [exact Hall|].
      intros s [Hv [d [Hd Hin']]]. split; [exact Hv|].
      exists d. split; [exact Hd|]. apply elem_of_app. now left.
    + apply Forall_forall. intros s Hs.
      apply list_elem_of_In, in_map_iff in Hs. destruct Hs as [s0 [<- Hs0]].
      apply filter_In in Hs0. destruct Hs0 as [_ Hv]. split.
      * now rewrite validate_tag.
      * exists filename. split; [reflexivity|].
        apply elem_of_app. right. now apply list_elem_of_singleton.
  - apply Forall_app. split; [exact Hdocs|]. constructor; [|constructor].
    split; [exact Hpdf|]. exists pdf. split; [exact Hin|].
    rewrite Hex. now eexists.
Qed.

Lemma gathered_gathering listing :
  gathering (extract sent_tokenize fit_transform argsort) listing
    (gathered sent_tokenize fit_transform argsort listing).
Proof.
  unfold gathered.
  assert (H : forall l acc,
             (forall f, f ∈ l -> f ∈ listing) ->
             gathering (extract sent_tokenize fit_transform argsort) listing acc ->
             gathering (extract sent_tokenize fit_transform argsort) listing
               (fold_left (process_file sent_tokenize fit_transform argsort) l acc)).
  { induction l as [|f l IH]; intros acc Hl Hacc; [exact Hacc|].
    cbn [fold_left]. apply IH.
    - intros x Hx. apply Hl. now right.
    - apply process_file_gathering; [|exact Hacc]. apply Hl. now left. }
  apply H; [auto|]. split; constructor.
Qed.

End PipelineFacts.
Section OutputTotality.
Import RelevanceModel OutputGenerator.

Lemma relaxed_pass_total slots ranked st :
  Forall (fun r => is_Some (document (snd r))) ranked ->
  is_Some (relaxed_pass slots ranked st).
Proof.
  intros H. revert slots st.
  induction H as [|[score s] ranked [doc Hdoc] _ IH]; intros slots st; simpl.
  - now exists st.
  - destruct (slots <=? 0); [now exists st|].
    simpl in Hdoc. rewrite Hdoc. simpl.
    destruct (bool_decide _); [apply IH|].
    destruct (title_ok _); apply IH.
Qed.

Lemma extracted_total (g : nat -> nat) (picks : list (Q * section)) :
  Forall (fun r => is_Some (document (snd r))) picks ->
  is_Some (mapM (fun '(i, r) => extracted_of (S i) r)
             (imap (fun i r => (g i, r)) picks)).
Proof.
  intros H. revert g. induction H as [|r picks [doc Hdoc] _ IH]; intros g.
  - now eexists.
  - rewrite imap_cons. cbn [mapM mbind option_bind].
    assert (He : is_Some (extracted_of (S (g 0)) r)).
    { unfold extracted_of. rewrite Hdoc. now eexists. }
    destruct He as [e ->]. cbn [mbind option_bind].
    destruct (IH (g ∘ S)) as [rest Hrest].
    match goal with
    | |- is_Some (?m ≫= _) => change m with (Some rest) || (replace m with (Some rest))
    end.
    now eexists.
Qed.

Lemma generate_combined_output_total documents persona job ranked now :
  Forall (fun r => is_Some (document (snd r))) ranked ->
  is_Some (generate_combined_output documents persona job ranked now).
Proof.
  intros Hdocs. unfold generate_combined_output.
  destruct ranked as [|r0 ranked]; [now eexists|]. cbn [truthy negb].
  destruct (select_sections documents (r0 :: ranked)) as [st|] eqn:Hsel.
  - cbn [mbind option_bind].
    pose proof (select_sections_picks _ _ _ Hsel) as Hp.
    assert (Hd : Forall (fun r => is_Some (document (snd r))) (final_sections st)).
    { eapply Forall_impl; [exact Hp|]. now intros r [_ [_ Hr]]. }
    destruct (extracted_total (fun i => i) _ Hd) as [extracted ->].
    cbn [mbind option_bind].
    assert (Hs : is_Some (mapM subsection_of (final_sections st))).
    { apply mapM_is_Some_2. eapply Forall_impl; [exact Hd|].
      intros r [doc Hr]. unfold compose, subsection_of. rewrite Hr. now eexists. }
    destruct Hs as [analysis ->]. now eexists.
  - exfalso. unfold select_sections in Hsel.
    destruct (first_pass_total (max_per_doc documents) (r0 :: ranked)
                empty_selection Hdocs) as [st1 H1].
    rewrite H1 in Hsel. cbn [mbind option_bind] in Hsel.
    destruct (_ && _); [|discriminate].
    destruct (relaxed_pass_total (max_sections - length (final_sections st1))
                (r0 :: ranked) st1 Hdocs) as [st2 H2].
    congruence.
Qed.

(** The ranked sections that [main] passes on are gathered sections. *)
Lemma main_ranked_are_gathered tfidf_similarity model query threshold all_sections r :
  r ∈ filter_duplicates (score_sections tfidf_similarity model query all_sections)
        threshold ->
  snd r ∈ all_sections.
Proof.
  intros Hr.
  assert (Hr' : r ∈ score_sections tfidf_similarity model query all_sections).
  { eapply elem_of_sublist; [exact Hr|]. apply filter_duplicates_inv. }
  assert (Hs : snd r ∈ map snd (score_sections tfidf_similarity model query all_sections)).
  { apply list_elem_of_fmap. now exists r. }
  destruct (score_sections_inv tfidf_similarity model query all_sections) as [_ Hperm].
  rewrite Hperm in Hs. apply list_elem_of_In in Hs. apply filter_In in Hs.
  apply list_elem_of_In. tauto.
Qed.
End OutputTotality.



(** X22. A file is listed among the processed documents only if its name
    ends in ".pdf", it could be opened and its segmentation did not raise:
    other files and failing documents are skipped. *)
Theorem listed_documents_are_extracted_pdfs
    (sent_tokenize : str -> list str)
    (fit_transform : list str -> option (list (list Q)))
    (argsort : list Q -> list nat)
    (listing : list (str * option PdfParser.pdf_document)) :
  Forall (fun d => endswith d (py ".pdf") = true
                   /\ exists pdf,
                        (d, Some pdf) ∈ listing
                        /\ is_Some (Main.extract sent_tokenize fit_transform argsort pdf))
    (snd (gathered sent_tokenize fit_transform argsort listing)).
Proof. apply gathered_gathering. Qed.

(** X23. [main] always writes an output: whatever the files and whatever
    the collaborators answer or fail to answer, no section reaches the
    output generator without its document, so no step raises. *)
Theorem main_always_writes_an_output
    (sent_tokenize : str -> list str)
    (fit_transform : list str -> option (list (list Q)))
    (argsort : list Q -> list nat)
    (tfidf_similarity : str -> list str -> option (list Q))
    (model : option (str -> list str -> option (list Q)))
    (listing : list (str * option PdfParser.pdf_document))
    (persona job now : str) :
  is_Some (Main.main sent_tokenize fit_transform argsort tfidf_similarity model
             listing persona job now).
Proof.
  unfold Main.main.
  pose proof (gathered_gathering sent_tokenize fit_transform argsort listing)
    as [Hall _].
  unfold gathered in Hall.
  destruct (fold_left _ listing _) as [all_sections document_list].
  cbn [fst snd] in Hall.
  destruct (negb (truthy all_sections)).
  - apply generate_combined_output_total. constructor.
  - apply generate_combined_output_total. apply Forall_forall. intros r Hr.
    apply main_ranked_are_gathered in Hr.
    rewrite Forall_forall in Hall. destruct (Hall _ Hr) as [_ [d [Hd _]]].
    rewrite Hd. now eexists.
Qed.

Lemma generate_combined_output_metadata documents persona job ranked now out :
  OutputGenerator.generate_combined_output documents persona job ranked now = Some out ->
  OutputGenerator.input_documents (OutputGenerator.out_metadata out) = documents.
Proof.
  unfold OutputGenerator.generate_combined_output.
  destruct (negb (truthy ranked)); [now intros [= <-]|].
  destruct (OutputGenerator.select_sections _ _); [|discriminate].
  cbn [mbind option_bind].
  destruct (mapM _ (imap _ _)); [|discriminate]. cbn [mbind option_bind].
  destruct (mapM _ _); [|discriminate]. cbn [mbind option_bind].
  now intros [= <-].
Qed.

(** X24. Every record that [main] writes names a document of the
    metadata: the documents of the extracted sections are among the input
    documents of the same output. *)
Theorem output_documents_are_input_documents
    (sent_tokenize : str -> list str)
    (fit_transform : list str -> option (list (list Q)))
    (argsort : list Q -> list nat)
    (tfidf_similarity : str -> list str -> option (list Q))
    (model : option (str -> list str -> option (list Q)))
    (listing : list (str * option PdfParser.pdf_document))
    (persona job now : str) (out : OutputGenerator.output) :
  Main.main sent_tokenize fit_transform argsort tfidf_similarity model
    listing persona job now = Some out ->
  Forall (fun e => OutputGenerator.es_document e
                   ∈ OutputGenerator.input_documents (OutputGenerator.out_metadata out))
    (OutputGenerator.extracted_sections out).
Proof.
  unfold Main.main.
  pose proof (gathered_gathering sent_tokenize fit_transform argsort listing)
    as [Hall _].
  unfold gathered in Hall.
  destruct (fold_left _ listing _) as [all_sections document_list].
  cbn [fst snd] in Hall.
  destruct (negb (truthy all_sections)).
  - intros [= <-]. constructor.
  - intros H. rewrite (generate_combined_output_metadata _ _ _ _ _ _ H).
    remember (RelevanceModel.filter_duplicates _ _) as ranked eqn:Er.
    assert (Hg : forall r, r ∈ ranked ->
                 exists d, document (snd r) = Some d /\ d ∈ document_list).
    { intros r Hr. rewrite Er in Hr. apply main_ranked_are_gathered in Hr.
      rewrite Forall_forall in Hall. now destruct (Hall _ Hr) as [_ Hd]. }
    clear Er. destruct ranked as [|r0 ranked].
    + injection H as <-. constructor.
    + apply generate_combined_output_inv in H; [|discriminate].
      destruct H as [st [Hsel [Hrec _]]].
      pose proof (select_sections_picks _ _ _ Hsel) as Hp. clear Hsel.
      induction Hrec as [|r e picks records Hre Hrec IH]; [constructor|].
      apply Forall_cons in Hp. destruct Hp as [[Hin _] Hp].
      constructor; [|now apply IH].
      destruct (Hg r Hin) as [d [Hd Hlisted]].
      destruct Hre as [Hdoc _]. congruence.
Qed.

Lemma output_documents_are_input_documents_witness :
  Forall (fun e => OutputGenerator.es_document e
                   ∈ OutputGenerator.input_documents
                       (OutputGenerator.out_metadata fruitful_output))
    (OutputGenerator.extracted_sections fruitful_output).
Proof.
  apply (output_documents_are_input_documents sample_sent_tokenize
           sample_fit_transform sample_argsort sample_tfidf_similarity None
           fruitful_listing (py "Student") (py "Learn basics")
           (py "2025-01-01T00:00:00")).
  vm_compute. reflexivity.
Defined.

(** The output for [fruitful_listing]: one record, from the one PDF that
    has a valid section. *)
Example fruitful_output_records :
  map (fun e => (OutputGenerator.es_document e, OutputGenerator.es_section_title e,
                 OutputGenerator.importance_rank e, OutputGenerator.es_page_number e))
    (OutputGenerator.extracted_sections fruitful_output)
  = [(py "long.pdf", py "Results Overview", 1, 1%Z)]
  /\ OutputGenerator.input_documents (OutputGenerator.out_metadata fruitful_output)
     = [py "long.pdf"].
Proof. split; vm_compute; reflexivity. Qed.

(** ** Seats, order and isolation *)

Section SeatFacts.
Import OutputGenerator.

Lemma covered_empty : covered empty_selection.
Proof. intros k Hk. simpl in Hk. now apply not_elem_of_empty in Hk. Qed.

Lemma covered_accept st counts score s doc :
  covered st -> document s = Some doc ->
  covered {| doc_counts := counts;
             seen_sections := seen_sections st ∪ {[section_key_of doc s]};
             final_sections := final_sections st ++ [(score, s)] |}.
Proof.
  intros Hc Hdoc k Hk. cbn [seen_sections final_sections] in *.
  rewrite map_app. apply elem_of_app.
  apply elem_of_union in Hk. destruct Hk as [Hk|Hk].
  - left. now apply Hc.
  - right. apply elem_of_singleton in Hk. subst k.
    unfold pick_key. simpl. rewrite Hdoc. apply list_elem_of_singleton. reflexivity.
Qed.

Lemma first_pass_covered quota ranked st st' :
  covered st -> first_pass quota ranked st = Some st' -> covered st'.
Proof.
  revert st. induction ranked as [|[score s] ranked IH]; intros st Hc; simpl.
  - now intros [= <-].
  - destruct (document s) as [doc|] eqn:Hdoc; [|discriminate]. simpl.
    destruct (bool_decide _); [now apply IH|].
    destruct (quota <=? _); [now apply IH|].
    destruct (negb _); [now apply IH|].
    pose proof (covered_accept st
                  (<[doc := default 0 (doc_counts st !! doc) + 1]> (doc_counts st))
                  score s doc Hc Hdoc) as Hc'.
    match goal with |- (if ?b then _ else _) = _ -> _ => destruct b end.
    + now intros [= <-].
    + now apply IH.
Qed.

Lemma relaxed_pass_covered slots ranked st st' :
  covered st -> relaxed_pass slots ranked st = Some st' -> covered st'.
Proof.
  revert slots st. induction ranked as [|[score s] ranked IH]; intros slots st Hc; simpl.
  - now intros [= <-].
  - destruct (slots <=? 0); [now intros [= <-]|].
    destruct (document s) as [doc|] eqn:Hdoc; [|discriminate]. simpl.
    destruct (bool_decide _); [now apply IH|].
    destruct (title_ok _); [|now apply IH].
    apply IH. now apply covered_accept.
Qed.

Lemma relaxed_pass_seen_mono slots ranked st st' :
  relaxed_pass slots ranked st = Some st' ->
  forall k, k ∈ seen_sections st -> k ∈ seen_sections st'.
Proof.
  revert slots st. induction ranked as [|[score s] ranked IH]; intros slots st; simpl.
  - now intros [= <-].
  - destruct (slots <=? 0); [now intros [= <-]|].
    destruct (document s) as [doc|]; [|discriminate]. simpl.
    destruct (bool_decide _); [apply IH|].
    destruct (title_ok _); [|apply IH].
    intros H k Hk. apply (IH _ _ H). cbn. apply elem_of_union. now left.
Qed.

(** A relaxation pass that ends with a free seat has seen every eligible
    section. *)
Lemma relaxed_pass_complete slots ranked st st' :
  relaxed_pass slots ranked st = Some st' ->
  length (final_sections st') < length (final_sections st) + slots ->
  forall r, r ∈ ranked -> eligible r -> pick_key r ∈ seen_sections st'.
Proof.
  revert slots st. induction ranked as [|[score s] ranked IH]; intros slots st; simpl.
  - intros _ _ r Hr. now apply elem_of_nil in Hr.
  - destruct (slots <=? 0) eqn:Hslots.
    { apply Nat.leb_le in Hslots. intros [= <-] Hlt. lia. }
    apply Nat.leb_gt in Hslots.
    destruct (document s) as [doc|] eqn:Hdoc; [|discriminate]. simpl.
    assert (Hkey : pick_key (score, s) = section_key_of doc s).
    { unfold pick_key. simpl. now rewrite Hdoc. }
    destruct (bool_decide _) eqn:Hseen.
    + intros H Hlt r Hr Hel. apply elem_of_cons in Hr. destruct Hr as [->|Hr].
      * rewrite Hkey. apply (relaxed_pass_seen_mono _ _ _ _ H).
        now apply bool_decide_eq_true in Hseen.
      * now apply (IH _ _ H Hlt).
    + destruct (title_ok (stripped_title s)) eqn:Hok.
      * intros H Hlt r Hr Hel. apply elem_of_cons in Hr. destruct Hr as [->|Hr].
        -- rewrite Hkey. apply (relaxed_pass_seen_mono _ _ _ _ H).
           cbn. apply elem_of_union. right. now apply elem_of_singleton.
        -- apply (IH _ _ H); [|exact Hr|exact Hel].
           cbn [final_sections]. rewrite length_app. simpl. lia.
      * intros H Hlt r Hr Hel. apply elem_of_cons in Hr. destruct Hr as [->|Hr].
        -- destruct Hel as [Hel _]. simpl in Hel. congruence.
        -- now apply (IH _ _ H Hlt).
Qed.

Lemma sublist_full {A} (l1 l2 : list A) :
  l1 `sublist_of` l2 -> length l2 <= length l1 -> l1 = l2.
Proof.
  induction 1 as [|x l1 l2 Hs IH|x l1 l2 Hs IH]; simpl; intros Hlen.
  - reflexivity.
  - f_equal. apply IH. lia.
  - apply sublist_length in Hs. lia.
Qed.
End SeatFacts.

(** X25. The selection leaves a seat empty only for lack of material:
    when fewer than five sections are selected, every ranked section that
    has a document and a title of three characters or more is selected, or
    has the document, title and page of a selected section. *)
Theorem free_seat_means_no_eligible_section_left
    (documents : list str) (ranked_sections : list (Q * section))
    (st : OutputGenerator.selection) (r : Q * section) :
  OutputGenerator.select_sections documents ranked_sections = Some st ->
  length (OutputGenerator.final_sections st) < 5 ->
  r ∈ ranked_sections -> eligible r ->
  pick_key r ∈ map pick_key (OutputGenerator.final_sections st).
Proof.
  unfold OutputGenerator.select_sections.
  destruct (OutputGenerator.first_pass _ _ _) as [st1|] eqn:H1; [|discriminate].
  cbn [mbind option_bind].
  pose proof (first_pass_covered _ _ _ _ covered_empty H1) as Hc1.
  destruct (length (OutputGenerator.final_sections st1) <? OutputGenerator.max_sections)
    eqn:Hlt1.
  - destruct (length (OutputGenerator.final_sections st1) <? length ranked_sections)
      eqn:Hlt2; cbn [andb].
    + intros H2 Hlen Hr Hel.
      apply (relaxed_pass_covered _ _ _ _ Hc1 H2).
      apply (relaxed_pass_complete _ _ _ _ H2); [|exact Hr|exact Hel].
      apply Nat.ltb_lt in Hlt1. unfold OutputGenerator.max_sections in *. lia.
    + intros [= <-] _ Hr _. apply Nat.ltb_ge in Hlt2.
      apply first_pass_picks in H1. destruct H1 as [picks [E [Hsub _]]].
      simpl in E. rewrite E in *.
      rewrite (sublist_full _ _ Hsub Hlt2).
      apply list_elem_of_fmap. now exists r.
  - cbn [andb]. intros [= <-] Hlen. apply Nat.ltb_ge in Hlt1.
    unfold OutputGenerator.max_sections in Hlt1. lia.
Qed.

Lemma free_seat_means_no_eligible_section_left_witness :
  pick_key (7 # 10, sample_section "a.pdf" "Alpha Three" "one two three four five six" 3)%Q
  ∈ map pick_key
      (OutputGenerator.final_sections
         (default OutputGenerator.empty_selection
            (OutputGenerator.select_sections two_documents four_sections))).
Proof.
  apply (free_seat_means_no_eligible_section_left two_documents four_sections).
  - vm_compute. reflexivity.
  - vm_compute. lia.
  - apply elem_of_cons. right. apply elem_of_cons. right. apply elem_of_cons. now left.
  - split; [vm_compute; reflexivity|]. now eexists.
Defined.

(** X26. A file that is not a PDF, cannot be opened, or whose segmentation
    raises is skipped: the output is the one of the same directory
    without that file. *)
Theorem failing_file_is_skipped
    (sent_tokenize : str -> list str)
    (fit_transform : list str -> option (list (list Q)))
    (argsort : list Q -> list nat)
    (tfidf_similarity : str -> list str -> option (list Q))
    (model : option (str -> list str -> option (list Q)))
    (before after : list (str * option PdfParser.pdf_document))
    (filename : str) (pdf : option PdfParser.pdf_document)
    (persona job now : str) :
  endswith filename (py ".pdf") = false
  \/ pdf ≫= Main.extract sent_tokenize fit_transform argsort = None ->
  Main.main sent_tokenize fit_transform argsort tfidf_similarity model
    (before ++ (filename, pdf) :: after) persona job now
  = Main.main sent_tokenize fit_transform argsort tfidf_similarity model
      (before ++ after) persona job now.
Proof.
  intros Hbad. unfold Main.main. rewrite !fold_left_app. cbn [fold_left].
  assert (E : forall acc,
             Main.process_file sent_tokenize fit_transform argsort acc (filename, pdf)
             = acc).
  { intros [all_sections document_list]. unfold Main.process_file.
    destruct (endswith filename (py ".pdf")); [|reflexivity].
    destruct Hbad as [Hbad|Hbad]; [discriminate|]. now rewrite Hbad. }
  now rewrite E.
Qed.

Lemma failing_file_is_skipped_witness :
  Main.main sample_sent_tokenize sample_fit_transform sample_argsort
    sample_tfidf_similarity None
    ([(py "long.pdf", Some long_body_document)]
     ++ (py "broken.pdf", None) :: [(py "short.pdf", Some short_body_document)])
    (py "Student") (py "Learn basics") (py "2025-01-01T00:00:00")
  = Main.main sample_sent_tokenize sample_fit_transform sample_argsort
      sample_tfidf_similarity None
      ([(py "long.pdf", Some long_body_document)]
       ++ [(py "short.pdf", Some short_body_document)])
      (py "Student") (py "Learn basics") (py "2025-01-01T00:00:00").
Proof.
  apply (failing_file_is_skipped sample_sent_tokenize sample_fit_transform
           sample_argsort sample_tfidf_similarity None).
  right. reflexivity.
Defined.

Section OrderFacts.

Lemma Qge_transitive : Transitive (fun a b : Q => (b <= a)%Q).
Proof. intros a b c Hab Hbc. now apply (Qle_trans _ b). Qed.

Lemma score_descending_sorted (scores : list Q) :
  score_descending scores = true <-> StronglySorted (fun a b => (b <= a)%Q) scores.
Proof.
  split.
  - intros H. apply (@Sorted_StronglySorted _ _ Qge_transitive).
    induction scores as [|a scores IH]; [constructor|].
    apply score_descending_cons in H. destruct H as [Hhd H].
    constructor; [now apply IH|].
    destruct scores as [|b scores]; constructor. now apply Qle_bool_iff.
  - induction 1 as [|a scores Hs IH Ha]; [reflexivity|].
    apply score_descending_cons. split; [|exact IH].
    destruct scores as [|b scores]; [exact I|].
    apply Qle_bool_iff. apply Forall_cons in Ha. tauto.
Qed.

Lemma StronglySorted_sublist {A} (R : relation A) (l1 l2 : list A) :
  l1 `sublist_of` l2 -> StronglySorted R l2 -> StronglySorted R l1.
Proof.
  induction 1 as [|x l1 l2 Hs IH|x l1 l2 Hs IH]; intros H.
  - constructor.
  - apply StronglySorted_cons in H. destruct H as [Hx H].
    constructor; [now apply IH|].
    rewrite Forall_forall in *. intros y Hy. apply Hx.
    now apply (elem_of_sublist l1).
  - apply StronglySorted_cons in H. now apply IH.
Qed.

Lemma sublist_map {A B} (f : A -> B) (l1 l2 : list A) :
  l1 `sublist_of` l2 -> map f l1 `sublist_of` map f l2.
Proof.
  induction 1; simpl; [constructor|now apply sublist_skip|now apply sublist_cons].
Qed.
End OrderFacts.

(** X27. The duplicate filter keeps a ranking ranked: the results it
    returns for a score-descending list are score-descending. *)
Theorem filter_duplicates_keeps_descending_order
    (ranked_results : list (Q * section)) (similarity_threshold : Q) :
  score_descending (map fst ranked_results) = true ->
  score_descending
    (map fst (RelevanceModel.filter_duplicates ranked_results similarity_threshold))
  = true.
Proof.
  intros H. apply score_descending_sorted. apply score_descending_sorted in H.
  eapply StronglySorted_sublist; [|exact H].
  apply sublist_map. apply filter_duplicates_inv.
Qed.

Lemma filter_duplicates_keeps_descending_order_witness :
  score_descending
    (map fst (RelevanceModel.filter_duplicates duplicate_sections (7 # 10))) = true.
Proof.
  apply (filter_duplicates_keeps_descending_order duplicate_sections (7 # 10)).
  vm_compute. reflexivity.
Defined.

(** ** Whitespace normalisation *)

Section CleanText.
Import Re.

Lemma run_star_unfold {A} ic r prev s (k : option char -> str -> option A) :
  run ic (Star r) prev s k = star_loop ic r k (length s) prev s.
Proof. reflexivity. Qed.

(** [\s*] is greedy: it leaves the input without its leading white space. *)
Lemma star_spaces fuel prev (s : str) :
  length s <= fuel ->
  star_loop false (Chr isspace) (fun _ s' => Some s') fuel prev s = Some (lstrip s).
Proof.
  revert prev s. induction fuel as [|fuel IH]; intros prev s Hlen.
  - destruct s; [reflexivity|simpl in Hlen; lia].
  - destruct s as [|c s]; [reflexivity|].
    cbn [star_loop run lstrip]. rewrite andb_false_l, orb_false_r.
    destruct (isspace c); [|reflexivity].
    replace (length s <? length (c :: s)) with true
      by (symmetry; apply Nat.ltb_lt; simpl; lia).
    fold (@star_loop str false (Chr isspace) (fun _ s' => Some s')).
    rewrite IH by (simpl in Hlen; lia). reflexivity.
Qed.

(** [\s+] matches at a white space character, up to the next character
    that is not white space, and nowhere else. *)
Lemma match_spaces prev (s : str) :
  match_at false (Plus (Chr isspace)) prev s
  = match s with
    | c :: rest => if isspace c then Some (lstrip rest) else None
    | [] => None
    end.
Proof.
  unfold match_at, Plus. destruct s as [|c s]; [reflexivity|].
  cbn [run]. rewrite andb_false_l, orb_false_r.
  destruct (isspace c); [|reflexivity].
  fold (@star_loop str false (Chr isspace) (fun _ s' => Some s')).
  apply star_spaces. lia.
Qed.

Lemma lstrip_length (s : str) : length (lstrip s) <= length s.
Proof.
  induction s as [|c s IH]; simpl; [lia|]. destruct (isspace c); simpl; lia.
Qed.

Lemma squeeze_lstrip (s : str) : squeeze true s = squeeze false (lstrip s).
Proof.
  induction s as [|c s IH]; [reflexivity|]. simpl.
  destruct (isspace c) eqn:Hc; [exact IH|]. simpl. now rewrite Hc.
Qed.

Lemma replaced_cons_skip repl c skipped m rest :
  replaced repl ((c :: skipped, m) :: rest) = c :: replaced repl ((skipped, m) :: rest).
Proof. reflexivity. Qed.

(** Replacing the matches of [\s+] by one space squeezes the text. *)
Lemma scan_spaces fuel prev (s : str) :
  length s < fuel ->
  replaced (py " ") (scan false (Plus (Chr isspace)) fuel prev s) = squeeze false s.
Proof.
  revert prev s. induction fuel as [|fuel IH]; intros prev s Hlen; [lia|].
  cbn [scan]. rewrite match_spaces.
  destruct s as [|c s]; [reflexivity|].
  cbn [squeeze]. destruct (isspace c) eqn:Hc.
  - pose proof (lstrip_length s) as Hl.
    destruct (length (c :: s) - length (lstrip s)) as [|n] eqn:Hn;
      [simpl in Hn; lia|].
    change (replaced (py " ") (([], Some (take (S n) (c :: s))) :: ?rest))
      with (py " " ++ replaced (py " ") rest).
    cbn [replaced map concat app].
    change (32%N :: concat (map _ ?e)) with (32%N :: replaced (py " ") e).
    rewrite IH by (simpl in Hlen; lia).
    now rewrite squeeze_lstrip.
  - specialize (IH (Some c) s ltac:(simpl in Hlen; lia)).
    destruct (scan false (Plus (Chr isspace)) fuel (Some c) s) as [|[skipped m] rest].
    + now rewrite <- IH.
    + rewrite <- IH. reflexivity.
Qed.

Lemma sub_spaces (text : str) :
  sub false (Plus (Chr isspace)) (py " ") text = squeeze false text.
Proof.
  apply (scan_spaces (S (length text)) None text). lia.
Qed.
End CleanText.

Section Normalisation.

Lemma lstrip_squeeze_true (s : str) : lstrip (squeeze true s) = squeeze true s.
Proof.
  induction s as [|c s IH]; [reflexivity|]. simpl.
  destruct (isspace c) eqn:Hc; [exact IH|]. simpl. now rewrite Hc.
Qed.

Lemma lstrip_squeeze_false (s : str) : lstrip (squeeze false s) = squeeze true s.
Proof.
  destruct s as [|c s]; [reflexivity|]. simpl.
  destruct (isspace c) eqn:Hc; simpl.
  - apply lstrip_squeeze_true.
  - now rewrite Hc.
Qed.

Lemma lstrip_app (u v : str) :
  lstrip (u ++ v) = if truthy (lstrip u) then lstrip u ++ v else lstrip v.
Proof.
  induction u as [|c u IH]; [reflexivity|]. simpl.
  destruct (isspace c); [exact IH|reflexivity].
Qed.

Lemma truthy_rev {A} (l : list A) : truthy (rev l) = truthy l.
Proof.
  destruct l as [|a l]; [reflexivity|]. simpl. now destruct (rev l).
Qed.

Lemma rstrip_app (a x : str) :
  rstrip (a ++ x) = if truthy (rstrip x) then a ++ rstrip x else rstrip a.
Proof.
  unfold rstrip. rewrite rev_app_distr, lstrip_app, truthy_rev.
  destruct (truthy (lstrip (rev x))); [|reflexivity].
  now rewrite rev_app_distr, rev_involutive.
Qed.

Lemma lstrip_word (l : str) : Forall (fun c => isspace c = false) l -> lstrip l = l.
Proof. destruct 1 as [|c l Hc _]; [reflexivity|]. simpl. now rewrite Hc. Qed.

Lemma rstrip_word (a : str) : Forall (fun c => isspace c = false) a -> rstrip a = a.
Proof.
  intros H. unfold rstrip. rewrite lstrip_word; [apply rev_involutive|].
  apply Forall_forall. intros c Hc. rewrite Forall_forall in H. apply H.
  apply list_elem_of_In. apply in_rev. now apply list_elem_of_In.
Qed.

Lemma join_words_nonempty (ws : list str) :
  ws <> [] -> Forall is_word ws -> join (py " ") ws <> [].
Proof.
  destruct ws as [|w ws]; [congruence|]. intros _ H.
  apply Forall_cons in H. destruct H as [[Hw _] _].
  simpl. destruct ws; [exact Hw|].
  intros E. apply app_eq_nil in E. tauto.
Qed.

(** The squeezed text, without the space it may end in, is the words of
    the text joined by single spaces; [cur] is the word being read. *)
Lemma rstrip_squeeze (cur s : str) :
  Forall (fun c => isspace c = false) cur ->
  rstrip (rev cur ++ squeeze (negb (truthy cur)) s)
  = join (py " ") (runs nonspace cur s).
Proof.
  revert cur. induction s as [|c s IH]; intros cur Hcur.
  - cbn [squeeze runs]. rewrite app_nil_r.
    assert (Hr : Forall (fun c => isspace c = false) (rev cur)).
    { apply Forall_forall. intros x Hx. rewrite Forall_forall in Hcur. apply Hcur.
      apply list_elem_of_In. apply in_rev. now apply list_elem_of_In. }
    rewrite (rstrip_word _ Hr). now destruct cur.
  - cbn [squeeze runs]. unfold nonspace at 1.
    destruct (isspace c) eqn:Hc; cbn [negb].
    + destruct cur as [|a cur]; cbn [truthy negb].
      * apply (IH [] Hcur).
      * pose proof (IH [] ltac:(constructor)) as IH0.
        cbn [rev app truthy negb] in IH0.
        assert (Hr : Forall (fun c => isspace c = false) (rev (a :: cur))).
        { apply Forall_forall. intros x Hx. rewrite Forall_forall in Hcur.
          apply Hcur. apply list_elem_of_In. apply in_rev.
          now apply list_elem_of_In. }
        set (word := rev (a :: cur)) in *.
        rewrite rstrip_app.
        change (32%N :: squeeze true s) with ([32%N] ++ squeeze true s).
        rewrite rstrip_app, IH0.
        pose proof (runs_are_words [] s ltac:(constructor)) as Hwords.
        destruct (runs nonspace [] s) as [|w ws] eqn:Hruns.
        -- cbn. apply rstrip_word. exact Hr.
        -- assert (Hj : truthy (join (py " ") (w :: ws)) = true).
           { pose proof (join_words_nonempty (w :: ws) ltac:(discriminate) Hwords).
             now destruct (join (py " ") (w :: ws)). }
           rewrite Hj. cbn [app truthy]. reflexivity.
    + rewrite <- (IH (c :: cur)) by now constructor.
      cbn [truthy negb rev]. rewrite <- app_assoc. reflexivity.
Qed.

(** [clean_text] normalises white space: what it returns is the words of
    the text separated by single spaces. *)
Lemma clean_text_normalizes (text : str) :
  Summarizer.clean_text text = whitespace_normalized text.
Proof.
  unfold Summarizer.clean_text, whitespace_normalized, strip.
  rewrite sub_spaces, lstrip_squeeze_false.
  exact (rstrip_squeeze [] text ltac:(constructor)).
Qed.
End Normalisation.

(** ** The summarizer, against the words of its contract *)

Lemma Qsum_sum_weights (row : list Q) : Summarizer.Qsum row = sum_weights row.
Proof.
  induction row as [|w row IH]; [reflexivity|].
  unfold Summarizer.Qsum in *. simpl. now rewrite IH.
Qed.

Lemma importance_summed_weights (X : list (list Q)) :
  map Summarizer.Qsum X = summed_weights X.
Proof. unfold summed_weights. apply map_ext. exact Qsum_sum_weights. Qed.

(** C6. When the text has at most [max_sentences] sentences, the summary
    is the whitespace-normalised text: its words separated by single
    spaces.  Otherwise, given the weights of the vectorizer (one row per
    sentence) and an ascending permutation from the argsort of their
    sums, the summary is the normalised join of exactly [max_sentences]
    sentences, taken in increasing position, none of which has a smaller
    sum of term weights than a sentence left out. *)
Theorem summarize_text_selects_top_in_order
    (sent_tokenize : str -> list str)
    (fit_transform : list str -> option (list (list Q)))
    (argsort : list Q -> list nat)
    (text : str) (max_sentences : nat) :
  let sentences := sent_tokenize text in
  (length sentences <= max_sentences ->
   Summarizer.summarize_text sent_tokenize fit_transform argsort text max_sentences
   = Some (whitespace_normalized text))
  /\ (max_sentences < length sentences ->
      forall X,
        fit_transform sentences = Some X ->
        length X = length sentences ->
        Permutation (argsort (summed_weights X)) (seq 0 (length X)) ->
        ascending (summed_weights X) (argsort (summed_weights X)) = true ->
        exists picked : list nat,
          length picked = max_sentences
          /\ StronglySorted lt picked
          /\ (forall i, i ∈ picked -> i < length sentences)
          /\ (forall i j, i ∈ picked -> j < length sentences -> j ∉ picked ->
                no_heavier (summed_weights X) j i)
          /\ Summarizer.summarize_text sent_tokenize fit_transform argsort
               text max_sentences
             = Some (whitespace_normalized
                       (join (py " ") (map (fun i => nth i sentences []) picked)))).
Proof.
  intros sentences. unfold Summarizer.summarize_text. fold sentences. split.
  - intros Hle. apply Nat.leb_le in Hle. rewrite Hle.
    now rewrite clean_text_normalizes.
  - intros Hlt X HX Hrows Hperm Hasc.
    apply Nat.leb_gt in Hlt as Hleb. rewrite Hleb, HX. cbn [mbind option_bind].
    remember (map Summarizer.Qsum X) as importance eqn:Ei.
    rewrite importance_summed_weights in Ei. subst importance.
    set (order := argsort (summed_weights X)) in *.
    set (picked := merge_sort le (take max_sentences (rev order))).
    assert (Hpp : Permutation picked (take max_sentences (rev order)))
      by apply merge_sort_Permutation.
    assert (Hlen : length order = length sentences).
    { rewrite (Permutation_length Hperm), length_seq. exact Hrows. }
    assert (Hnd : NoDup (rev order)).
    { rewrite <- (Permutation_rev order), Hperm. apply NoDup_seq. }
    assert (Hin : forall i, i ∈ picked -> i ∈ take max_sentences (rev order)).
    { intros i Hi. now rewrite <- Hpp. }
    assert (Hrange : forall i, i ∈ picked -> i < length sentences).
    { intros i Hi. apply Hin in Hi.
      assert (Hr : i ∈ rev order).
      { rewrite <- (firstn_skipn max_sentences (rev order)).
        apply elem_of_app. now left. }
      apply list_elem_of_In in Hr. rewrite <- in_rev in Hr.
      apply list_elem_of_In in Hr. rewrite Hperm in Hr.
      apply elem_of_seq in Hr. lia. }
    exists picked. split; [|split; [|split; [|split]]].
    + rewrite (Permutation_length Hpp), length_take, length_rev. lia.
    + apply StronglySorted_le_lt.
      * apply StronglySorted_merge_sort; apply _.
      * rewrite Hpp. rewrite <- (firstn_skipn max_sentences (rev order)) in Hnd.
        now apply NoDup_app in Hnd.
    + exact Hrange.
    + intros i j Hi Hj Hnot.
      apply (top_of_ascending _ order max_sentences); [exact Hasc|now apply Hin|].
      assert (Hr : j ∈ rev order).
      { apply list_elem_of_In. rewrite <- in_rev. apply list_elem_of_In.
        rewrite Hperm. apply elem_of_seq. lia. }
      rewrite <- (firstn_skipn max_sentences (rev order)) in Hr.
      apply elem_of_app in Hr. destruct Hr as [Hr|Hr]; [|exact Hr].
      exfalso. apply Hnot. now rewrite Hpp.
    + fold picked. rewrite (mapM_lookup_all sentences picked Hrange).
      cbn [mbind option_bind]. now rewrite clean_text_normalizes.
Qed.

Lemma summarize_text_selects_top_in_order_witness :
  exists picked : list nat,
    length picked = 2
    /\ StronglySorted lt picked
    /\ (forall i, i ∈ picked -> i < length (sample_sent_tokenize four_sentences))
    /\ (forall i j, i ∈ picked -> j < length (sample_sent_tokenize four_sentences) ->
          j ∉ picked ->
          no_heavier (summed_weights [[2; 2; 3]; [13; 9; 11]; [2; 2; 3]; [10; 9; 9]]%Q) j i)
    /\ Summarizer.summarize_text sample_sent_tokenize sample_fit_transform
         sample_argsort four_sentences 2
       = Some (whitespace_normalized
                 (join (py " ")
                    (map (fun i => nth i (sample_sent_tokenize four_sentences) [])
                       picked))).
Proof.
  apply (proj2 (summarize_text_selects_top_in_order sample_sent_tokenize
                  sample_fit_transform sample_argsort four_sentences 2)).
  - vm_compute. lia.
  - vm_compute. reflexivity.
  - vm_compute. reflexivity.
  - apply (bool_decide_unpack _). vm_compute. exact I.
  - vm_compute. reflexivity.
Defined.
